(** * YomiMark content script: furigana annotation core

    A shallow embedding of [src/content/content.js] and proofs of the
    properties its specification states about it.

    JavaScript strings are sequences of UTF-16 code units; a regular
    expression without the [u] flag and [String.prototype.replace] work on
    code units, [charCodeAt] reads one and [String.fromCharCode] writes one
    (after [ToUint16]).  The embedding keeps that view: a string is a list
    of code units, each a [Z]. *)

From Stdlib Require Import ZArith Lia Ascii String.
From stdpp Require Import base option list strings.

Local Open Scope Z_scope.
Local Set Warnings "-register-all".

(** ** Strings *)

Abbreviation jsstring := (list Z).

(** An ASCII literal of the source as a string of code units. *)
Definition lit (s : string) : jsstring :=
  (fun a => Z.of_nat (nat_of_ascii a)) <$> list_ascii_of_string s.

(** Code points of a string, pairing surrogates as [String.prototype.codePointAt]
    does: a lead surrogate followed by a trail surrogate is one supplementary
    code point, every other code unit stands for itself. *)
Definition is_lead (c : Z) : bool := (0xD800 <=? c) && (c <=? 0xDBFF).
Definition is_trail (c : Z) : bool := (0xDC00 <=? c) && (c <=? 0xDFFF).
Definition pair_code_point (hi lo : Z) : Z :=
  (hi - 0xD800) * 0x400 + (lo - 0xDC00) + 0x10000.

Fixpoint codePoints (s : jsstring) : list Z :=
  match s with
  | [] => []
  | c :: rest =>
      if is_lead c then
        match rest with
        | d :: rest' =>
            if is_trail d then pair_code_point c d :: codePoints rest'
            else c :: codePoints rest
        | [] => [c]
        end
      else c :: codePoints rest
  end.

(** ** Numbers as far as the script uses them

    [charCodeAt] yields a code unit or [NaN]; [String.fromCharCode] applies
    [ToUint16], which sends [NaN] to [0] and wraps modulo [2^16]. *)
Inductive jsnum : Type :=
  | Num (z : Z)
  | NaN.

Definition charCodeAt (s : jsstring) (i : nat) : jsnum :=
  match s !! i with
  | Some c => Num c
  | None => NaN
  end.

Definition jsnum_sub (a : jsnum) (b : Z) : jsnum :=
  match a with
  | Num z => Num (z - b)
  | NaN => NaN
  end.

Definition ToUint16 (n : jsnum) : Z :=
  match n with
  | Num z => z mod 65536
  | NaN => 0
  end.

Definition fromCharCode (n : jsnum) : jsstring := [ToUint16 n].

(** ** Regular expressions of the script

    Both regular expressions are a single character class, a union of
    code-unit ranges. *)
Definition CharClass := list (Z * Z).

Definition class_matches (cls : CharClass) (c : Z) : bool :=
  existsb (fun r => (fst r <=? c) && (c <=? snd r)) cls.

(** [RegExp.prototype.test] for a one-class pattern without flags: is there
    an index at which the class matches. *)
Definition regex_test (cls : CharClass) (str : jsstring) : bool :=
  existsb (class_matches cls) str.

(** [String.prototype.replace] with a one-class pattern under the [g] flag
    and a replacer function: every matching code unit is replaced by what
    the replacer returns for the one-unit match, the others are copied. *)
Fixpoint regex_replace_g (cls : CharClass) (f : jsstring -> jsstring)
    (str : jsstring) : jsstring :=
  match str with
  | [] => []
  | c :: rest =>
      (if class_matches cls c then f [c] else [c]) ++ regex_replace_g cls f rest
  end.

(** ** Kanji detection *)

Definition KANJI_REGEX : CharClass := [(0x4E00, 0x9FFF); (0x3400, 0x4DBF)].

Definition containsKanji (str : jsstring) : bool :=
  regex_test KANJI_REGEX str.

(** ** Katakana to hiragana *)

Definition KATAKANA_REGEX : CharClass := [(0x30A1, 0x30F6)].

Definition katakanaToHiragana (str : jsstring) : jsstring :=
  regex_replace_g KATAKANA_REGEX
    (fun ch => fromCharCode (jsnum_sub (charCodeAt ch 0) 0x60)) str.

(** The ranges the specification names, as predicates on a code point. *)
Definition is_kanji (c : Z) : Prop :=
  (0x4E00 <= c <= 0x9FFF) \/ (0x3400 <= c <= 0x4DBF).

Definition is_convertible_katakana (c : Z) : bool :=
  (0x30A1 <=? c) && (c <=? 0x30F6).

(** The per-character map of the specification. *)
Definition kana_char (c : Z) : Z :=
  if is_convertible_katakana c then c - 0x60 else c.

(** ** Abrupt completions

    A call either returns or throws.  [DictError] stands for whatever error
    value the dictionary loader reports. *)
Inductive exn : Type :=
  | TypeError (what : string)
  | DictError (id : nat).

Inductive completion (A : Type) : Type :=
  | Normal (a : A)
  | Throw (e : exn).
Arguments Normal {A} a.
Arguments Throw {A} e.

Definition cbind {A B} (c : completion A) (k : A -> completion B) : completion B :=
  match c with
  | Normal a => k a
  | Throw e => Throw e
  end.

Notation "x <-! c ; k" := (cbind c (fun x => k))
  (at level 20, c at level 100, k at level 200, only parsing).

(** ** Tokens, as kuromoji hands them over

    [reading] is absent ([undefined]) for tokens the dictionary does not
    know. *)
Record Token : Type := mkToken {
  surface_form : jsstring;
  reading : option jsstring
}.

(** [tokens[i]] followed by a property read: reading a property of
    [undefined] throws. *)
Definition token_at (tokens : list Token) (i : nat) : completion Token :=
  match tokens !! i with
  | Some t => Normal t
  | None => Throw (TypeError "Cannot read properties of undefined")
  end.

(** [ToBoolean] of a value that is a string or [undefined]. *)
Definition truthy (v : option jsstring) : bool :=
  match v with
  | Some (_ :: _) => true
  | Some [] => false
  | None => false
  end.

(** [===] on strings. *)
Definition jsstring_eqb (a b : jsstring) : bool := bool_decide (a = b).

(** ** The DOM as far as [escapeHTML] uses it

    A node is a text node or an element with children.  [innerHTML] is the
    HTML fragment serialisation of the children: the data of a text node is
    written with [&], U+00A0, [<] and [>] replaced by [&amp;], [&nbsp;],
    [&lt;] and [&gt;] (HTML Standard, "escaping a string", outside
    attribute mode); an element is written as its start tag, its children
    and its end tag. *)
Inductive Node : Type :=
  | TextNode (data : jsstring)
  | Element (tag : string) (children : list Node).

Definition escape_unit (c : Z) : jsstring :=
  if c =? 38 then lit "&amp;"
  else if c =? 160 then lit "&nbsp;"
  else if c =? 60 then lit "&lt;"
  else if c =? 62 then lit "&gt;"
  else [c].

Fixpoint escape_text (data : jsstring) : jsstring :=
  match data with
  | [] => []
  | c :: rest => escape_unit c ++ escape_text rest
  end.

Fixpoint serialize (n : Node) : jsstring :=
  match n with
  | TextNode data => escape_text data
  | Element tag children =>
      lit "<" ++ lit tag ++ lit ">"
      ++ concat (map serialize children)
      ++ lit "</" ++ lit tag ++ lit ">"
  end.

Definition createElement (tag : string) : Node := Element tag [].
Definition createTextNode (data : jsstring) : Node := TextNode data.

Definition appendChild (parent child : Node) : Node :=
  match parent with
  | Element tag children => Element tag (children ++ [child])
  | TextNode data => TextNode data
  end.

Definition innerHTML (n : Node) : jsstring :=
  match n with
  | Element _ children => concat (map serialize children)
  | TextNode _ => []
  end.

Definition escapeHTML (str : jsstring) : jsstring :=
  let div := createElement "div" in
  let div := appendChild div (createTextNode str) in
  innerHTML div.

(** ** Building the ruby markup *)

Definition DQUOTE : jsstring := [34].

Definition RUBY_OPEN : jsstring :=
  lit "<ruby class=" ++ DQUOTE ++ lit "yomimark-ruby" ++ DQUOTE ++ lit ">".
Definition RUBY_MID : jsstring := lit "<rp>(</rp><rt>".
Definition RUBY_CLOSE : jsstring := lit "</rt><rp>)</rp></ruby>".

(** The body of the loop: what one token appends to [html]. *)
Definition ruby_step (token : Token) (html : jsstring) : jsstring :=
  let surface := surface_form token in
  let reading := reading token in
  if containsKanji surface && truthy reading then
    let hiragana := katakanaToHiragana (default [] reading) in
    if negb (jsstring_eqb hiragana surface) then
      html ++ (RUBY_OPEN ++ escapeHTML surface ++ RUBY_MID
               ++ escapeHTML hiragana ++ RUBY_CLOSE)
    else html ++ escapeHTML surface
  else html ++ escapeHTML surface.

(** [for (let i = 0; i < tokens.length; i++)]: [n] iterations remain, the
    index is [i]. *)
Fixpoint buildRubyHTML_loop (tokens : list Token) (n : nat) (i : nat)
    (html : jsstring) : completion jsstring :=
  match n with
  | O => Normal html
  | S n' =>
      token <-! token_at tokens i;
      buildRubyHTML_loop tokens n' (S i) (ruby_step token html)
  end.

Definition buildRubyHTML (tokens : list Token) : completion jsstring :=
  buildRubyHTML_loop tokens (length tokens) 0 [].

(** *** The annotator as the specification words it

    One segment per token: the escaped surface form alone when the surface
    form has no kanji, or the reading is absent or empty, or the normalised
    reading is the surface form; otherwise the ruby pairing. *)
Inductive Segment : Type :=
  | Plain (text : jsstring)
  | RubyPair (base annotation : jsstring).

Definition render_segment (seg : Segment) : jsstring :=
  match seg with
  | Plain text => text
  | RubyPair base annotation =>
      RUBY_OPEN ++ base ++ RUBY_MID ++ annotation ++ RUBY_CLOSE
  end.

Definition has_kanji_cp (s : jsstring) : bool :=
  existsb (fun c => ((0x4E00 <=? c) && (c <=? 0x9FFF))
                    || ((0x3400 <=? c) && (c <=? 0x4DBF))) (codePoints s).

Definition spec_segment (t : Token) : Segment :=
  if negb (has_kanji_cp (surface_form t)) then Plain (escapeHTML (surface_form t))
  else match reading t with
       | None => Plain (escapeHTML (surface_form t))
       | Some [] => Plain (escapeHTML (surface_form t))
       | Some r =>
           let hira := map kana_char r in
           if bool_decide (hira = surface_form t)
           then Plain (escapeHTML (surface_form t))
           else RubyPair (escapeHTML (surface_form t)) (escapeHTML hira)
       end.

Definition spec_annotate (tokens : list Token) : jsstring :=
  concat (map (fun t => render_segment (spec_segment t)) tokens).

(** *** The markup the specification asks for, written without the code

    A segment as a small tree: text, or an element with attributes and
    children.  Its serialisation escapes the text ([&], [<], [>] and U+00A0
    become character references) and writes elements as start tag, children
    and end tag. *)
Inductive Markup : Type :=
  | MText (raw : jsstring)
  | MElement (tag : string) (attrs : list (string * string))
             (children : list Markup).

Definition entity_name (c : Z) : option string :=
  if c =? 38 then Some "amp"
  else if c =? 60 then Some "lt"
  else if c =? 62 then Some "gt"
  else if c =? 160 then Some "nbsp"
  else None.

Definition escaped_char (c : Z) : jsstring :=
  match entity_name c with
  | Some name => [38] ++ lit name ++ [59]
  | None => [c]
  end.

Definition escaped (raw : jsstring) : jsstring :=
  concat (map escaped_char raw).

Definition attr_html (a : string * string) : jsstring :=
  lit " " ++ lit (fst a) ++ lit "=" ++ [34] ++ lit (snd a) ++ [34].

Fixpoint markup_html (m : Markup) : jsstring :=
  match m with
  | MText raw => escaped raw
  | MElement tag attrs children =>
      lit "<" ++ lit tag ++ concat (map attr_html attrs) ++ lit ">"
      ++ concat (map markup_html children)
      ++ lit "</" ++ lit tag ++ lit ">"
  end.

(** One segment per token, in the words of the specification: the surface
    form as text when it has no kanji, or the reading is absent or empty, or
    the reading normalised to hiragana is the surface form; otherwise a
    ruby element of class [yomimark-ruby] whose base text is the surface
    form and whose annotation, in [rt], is the normalised reading, with the
    parentheses of the fallback in [rp]. *)
Definition spec_markup (t : Token) : Markup :=
  if negb (has_kanji_cp (surface_form t)) then MText (surface_form t)
  else match reading t with
       | None => MText (surface_form t)
       | Some [] => MText (surface_form t)
       | Some r =>
           let hira := map kana_char r in
           if bool_decide (hira = surface_form t)
           then MText (surface_form t)
           else MElement "ruby" [("class", "yomimark-ruby")]
                  [MText (surface_form t);
                   MElement "rp" [] [MText (lit "(")];
                   MElement "rt" [] [MText hira];
                   MElement "rp" [] [MText (lit ")")]]
       end.

(** *** Escaped text as a parser reads it

    Inside an element, [<] opens a tag and [&] opens a character reference;
    [>] closes a tag.  Text is inert when it has no [<] and no [>] and every
    [&] in it opens one of the references the serialiser writes.
    [decode_text] reads such text back as the HTML tokenizer does in its
    data state, for those references. *)
Fixpoint starts_with (pre s : jsstring) : bool :=
  match pre, s with
  | [], _ => true
  | a :: pre', b :: s' => (a =? b) && starts_with pre' s'
  | _ :: _, [] => false
  end.

Definition reference_follows (r : jsstring) : bool :=
  starts_with (lit "amp;") r || starts_with (lit "nbsp;") r
  || starts_with (lit "lt;") r || starts_with (lit "gt;") r.

Fixpoint markup_inert (s : jsstring) : bool :=
  match s with
  | [] => true
  | c :: r =>
      if (c =? 60) || (c =? 62) then false
      else if c =? 38 then reference_follows r && markup_inert r
      else markup_inert r
  end.

Fixpoint decode_text (skip : nat) (s : jsstring) : jsstring :=
  match s with
  | [] => []
  | c :: r =>
      match skip with
      | S k => decode_text k r
      | O =>
          if c =? 38 then
            if starts_with (lit "amp;") r then 38 :: decode_text 4 r
            else if starts_with (lit "nbsp;") r then 160 :: decode_text 5 r
            else if starts_with (lit "lt;") r then 60 :: decode_text 3 r
            else if starts_with (lit "gt;") r then 62 :: decode_text 3 r
            else c :: decode_text 0 r
          else c :: decode_text 0 r
      end
  end.

(** ** The stateful part: tokenizer initialisation and the selection

    The script runs on the browser's event loop: a handler runs to its end,
    then the promise reactions that became ready run, then the next event.
    The state below is the script's module-level variables, the promises
    and callbacks the runtime holds for it, and the part of the page it
    reads and writes. *)

(** A built kuromoji tokenizer; [tokenize] is third-party code. *)
Record Tokenizer : Type := mkTokenizer {
  tokenize : jsstring -> completion (list Token)
}.

(** The floating button. *)
Record Button : Type := mkButton {
  classList : list string;
  textContent : jsstring;
  attached : bool
}.

(** Module-level variables of the script. *)
Record Script : Type := mkScript {
  tokenizer : option Tokenizer;
  tokenizerLoading : bool;
  enabled : bool;
  floatingBtn : option Button
}.

(** A promise of a tokenizer handle ([null] included). *)
Inductive PromiseState : Type :=
  | Pending
  | Fulfilled (v : option Tokenizer)
  | Rejected (e : exn).

(** The two handler chains the script hangs on a promise of
    [initTokenizer]: [.then(...).catch(...)] of [annotateSelection], with
    the range and text captured by the closures, and the empty [.catch] of
    the preload timer. *)
Inductive Reaction : Type :=
  | AnnotateReaction (range : nat) (selectedText : jsstring)
  | PreloadReaction.

(** What the runtime holds: the promises by index, the reactions waiting on
    them, the dictionary loads in flight (each holds the [resolve] and
    [reject] of the promise named) and how often [build] was called. *)
Record Runtime : Type := mkRuntime {
  promises : list PromiseState;
  reactions : list (nat * Reaction);
  builds : list nat;
  buildCalls : nat
}.

Record Selection : Type := mkSelection {
  ranges : list nat;
  selectionText : jsstring
}.

Record Wrapper : Type := mkWrapper {
  className : string;
  markup : jsstring
}.

Inductive LogEntry : Type :=
  | LogError (msg : string) (e : exn)
  | LogInfo (msg : string).

(** The page: the selection ([window.getSelection()]), the ranges whose
    contents were replaced by a wrapper, and the console. *)
Record Page : Type := mkPage {
  selection : option Selection;
  insertions : list (nat * Wrapper);
  console : list LogEntry
}.

(** The platform as [initTokenizer] meets it: [chrome.runtime.getURL]
    throws when the extension context is gone, and the expression
    [kuromoji.builder(...).build(...)] can throw before any load has
    started.  Each field holds the error thrown, if the call would throw. *)
Record Platform : Type := mkPlatform {
  getURL_fault : option exn;
  build_fault : option exn
}.

Definition healthy : Platform := mkPlatform None None.

Record World : Type := mkWorld {
  script : Script;
  runtime : Runtime;
  page : Page;
  platform : Platform
}.

Definition with_script (f : Script -> Script) (w : World) : World :=
  mkWorld (f (script w)) (runtime w) (page w) (platform w).
Definition with_runtime (f : Runtime -> Runtime) (w : World) : World :=
  mkWorld (script w) (f (runtime w)) (page w) (platform w).
Definition with_page (f : Page -> Page) (w : World) : World :=
  mkWorld (script w) (runtime w) (f (page w)) (platform w).
Definition with_platform (pf : Platform) (w : World) : World :=
  mkWorld (script w) (runtime w) (page w) pf.

Definition set_tokenizer (v : option Tokenizer) (s : Script) : Script :=
  mkScript v (tokenizerLoading s) (enabled s) (floatingBtn s).
Definition set_tokenizerLoading (b : bool) (s : Script) : Script :=
  mkScript (tokenizer s) b (enabled s) (floatingBtn s).
Definition set_floatingBtn (b : option Button) (s : Script) : Script :=
  mkScript (tokenizer s) (tokenizerLoading s) (enabled s) b.

Definition console_write (entry : LogEntry) (pg : Page) : Page :=
  mkPage (selection pg) (insertions pg) (console pg ++ [entry]).

(** *** Promises *)

(** A new promise in the given state; its index is returned. *)
Definition new_promise (st : PromiseState) (w : World) : World * nat :=
  (with_runtime (fun r =>
     mkRuntime (promises r ++ [st]) (reactions r) (builds r) (buildCalls r)) w,
   length (promises (runtime w))).

(** [resolve] and [reject] of a promise: the first call settles it, later
    calls do nothing. *)
Definition settle (p : nat) (st : PromiseState) (w : World) : World :=
  match promises (runtime w) !! p with
  | Some Pending =>
      with_runtime (fun r =>
        mkRuntime (<[p := st]> (promises r)) (reactions r) (builds r)
                  (buildCalls r)) w
  | _ => w
  end.

(** [promise.then(...)], [promise.catch(...)]: the handlers wait. *)
Definition add_reaction (p : nat) (k : Reaction) (w : World) : World :=
  with_runtime (fun r =>
    mkRuntime (promises r) (reactions r ++ [(p, k)]) (builds r)
              (buildCalls r)) w.

(** [kuromoji.builder({ dicPath }).build(callback)]: a dictionary load
    starts; its callback settles promise [p] when the load ends. *)
Definition start_build (p : nat) (w : World) : World :=
  with_runtime (fun r =>
    mkRuntime (promises r) (reactions r) (builds r ++ [p])
              (S (buildCalls r))) w.

Definition finish_build (p : nat) (w : World) : World :=
  with_runtime (fun r =>
    mkRuntime (promises r) (reactions r)
              (filter (fun q => q <> p) (builds r)) (buildCalls r)) w.

(** *** initTokenizer *)

Definition is_set (v : option Tokenizer) : bool :=
  match v with
  | Some _ => true
  | None => false
  end.

(** [kuromoji.builder(...).build(...)] was evaluated and threw: the call is
    counted, and no load is in flight. *)
Definition count_build (w : World) : World :=
  with_runtime (fun r =>
    mkRuntime (promises r) (reactions r) (builds r) (S (buildCalls r))) w.

(** The state after the call and how the call completed: with the promise
    returned, or with the exception of [chrome.runtime.getURL].  An
    exception thrown inside the executor of [new Promise] rejects the
    promise. *)
Definition initTokenizer (w : World) : World * completion nat :=
  if is_set (tokenizer (script w)) || tokenizerLoading (script w) then
    let '(w, p) := new_promise (Fulfilled (tokenizer (script w))) w in
    (w, Normal p)
  else
    let w := with_script (set_tokenizerLoading true) w in
    match getURL_fault (platform w) with
    | Some e => (w, Throw e)
    | None =>
        match build_fault (platform w) with
        | Some e =>
            let '(w, p) := new_promise (Rejected e) w in
            (count_build w, Normal p)
        | None =>
            let '(w, p) := new_promise Pending w in
            (start_build p w, Normal p)
        end
    end.

(** The callback given to [build], with the promise whose [resolve] and
    [reject] it closes over.  kuromoji calls it with an error, or with
    [null] and the tokenizer. *)
Definition build_callback (p : nat) (result : exn + Tokenizer) (w : World)
    : World :=
  let w := with_script (set_tokenizerLoading false) w in
  match result with
  | inl err =>
      let w := with_page (console_write
                 (LogError "[YomiMark] Failed to load tokenizer:" err)) w in
      settle p (Rejected err) w
  | inr built =>
      let w := with_script (set_tokenizer (Some built)) w in
      let w := with_page (console_write (LogInfo "[YomiMark] Tokenizer ready")) w in
      settle p (Fulfilled (tokenizer (script w))) w
  end.

(** *** annotateSelection *)

(** White space and line terminators of ECMAScript, which
    [String.prototype.trim] strips from both ends. *)
Definition is_js_space (c : Z) : bool :=
  (c =? 0x09) || (c =? 0x0A) || (c =? 0x0B) || (c =? 0x0C) || (c =? 0x0D)
  || (c =? 0x20) || (c =? 0xA0) || (c =? 0x1680)
  || ((0x2000 <=? c) && (c <=? 0x200A))
  || (c =? 0x2028) || (c =? 0x2029) || (c =? 0x202F) || (c =? 0x205F)
  || (c =? 0x3000) || (c =? 0xFEFF).

Fixpoint trimStart (s : jsstring) : jsstring :=
  match s with
  | [] => []
  | c :: rest => if is_js_space c then trimStart rest else s
  end.

Definition trim (s : jsstring) : jsstring :=
  rev (trimStart (rev (trimStart s))).

Definition HOURGLASS : jsstring := [0x23F3].

(** [classList.add]. *)
Definition classList_add (cls : string) (b : Button) : Button :=
  mkButton (if bool_decide (cls ∈ classList b) then classList b
            else classList b ++ [cls])
           (textContent b) (attached b).

Definition set_textContent (t : jsstring) (b : Button) : Button :=
  mkButton (classList b) t (attached b).

(** The button, if any, leaves the page, and the variable is cleared. *)
Definition removeFloatingBtn (w : World) : World :=
  with_script (set_floatingBtn None) w.

(** [range.deleteContents(); range.insertNode(wrapper)]. *)
Definition replace_range (range : nat) (wrapper : Wrapper) (pg : Page) : Page :=
  mkPage (selection pg) (insertions pg ++ [(range, wrapper)]) (console pg).

(** [selection.removeAllRanges()]. *)
Definition removeAllRanges (pg : Page) : Page :=
  mkPage (match selection pg with
          | Some _ => Some (mkSelection [] [])
          | None => None
          end)
         (insertions pg) (console pg).

(** The function given to [.then]. *)
Definition annotate_onFulfilled (range : nat) (selectedText : jsstring)
    (tk : option Tokenizer) (w : World) : completion World :=
  match tk with
  | None => Throw (TypeError "Cannot read properties of null (reading 'tokenize')")
  | Some tk =>
      tokens <-! tokenize tk selectedText;
      rubyHTML <-! buildRubyHTML tokens;
      let wrapper := mkWrapper "yomimark-annotated" rubyHTML in
      let w := with_page (replace_range range wrapper) w in
      let w := with_page removeAllRanges w in
      Normal (removeFloatingBtn w)
  end.

(** The function given to [.catch]. *)
Definition annotate_onRejected (err : exn) (w : World) : World :=
  let w := with_page (console_write
             (LogError "[YomiMark] Annotation failed:" err)) w in
  removeFloatingBtn w.

(** [promise.then(onFulfilled).catch(onRejected)] once the promise has
    settled: a rejection, of the promise or thrown by [onFulfilled], reaches
    [onRejected]. *)
Definition then_catch (onFulfilled : option Tokenizer -> World -> completion World)
    (onRejected : exn -> World -> World) (st : PromiseState) (w : World) : World :=
  match st with
  | Pending => w
  | Fulfilled v =>
      match onFulfilled v w with
      | Normal w' => w'
      | Throw e => onRejected e w
      end
  | Rejected e => onRejected e w
  end.

Definition run_reaction (k : Reaction) (st : PromiseState) (w : World) : World :=
  match k with
  | AnnotateReaction range selectedText =>
      then_catch (annotate_onFulfilled range selectedText) annotate_onRejected st w
  | PreloadReaction => w
  end.

(** The state after the call and how the call completed: every [return]
    and the end of the body give [undefined]; an exception of
    [initTokenizer()] is not caught here. *)
Definition annotateSelection (w : World) : World * completion unit :=
  match selection (page w) with
  | None => (w, Normal tt)
  | Some sel =>
      match ranges sel with
      | [] => (w, Normal tt)
      | range :: _ =>
          let selectedText := trim (selectionText sel) in
          match selectedText with
          | [] => (w, Normal tt)
          | _ :: _ =>
              let w :=
                match floatingBtn (script w) with
                | Some b =>
                    with_script (set_floatingBtn
                      (Some (set_textContent HOURGLASS
                               (classList_add "yomimark-loading" b)))) w
                | None => w
                end in
              match initTokenizer w with
              | (w, Normal p) =>
                  (add_reaction p (AnnotateReaction range selectedText) w,
                   Normal tt)
              | (w, Throw e) => (w, Throw e)
              end
          end
      end
  end.

(** *** The event loop *)

Definition promise_state (p : nat) (w : World) : PromiseState :=
  default Pending (promises (runtime w) !! p).

Definition is_pending (st : PromiseState) : bool :=
  match st with
  | Pending => true
  | _ => false
  end.

Definition set_reactions (rs : list (nat * Reaction)) (r : Runtime) : Runtime :=
  mkRuntime (promises r) rs (builds r) (buildCalls r).

(** The reactions on settled promises run, in the order they were added;
    those on pending promises stay. *)
Definition run_reactions (w : World) : World :=
  let rs := reactions (runtime w) in
  let ready := filter (fun pk => is_pending (promise_state pk.1 w) = false) rs in
  let waiting := filter (fun pk => is_pending (promise_state pk.1 w) = true) rs in
  foldl (fun w pk => run_reaction pk.2 (promise_state pk.1 w) w)
        (with_runtime (set_reactions waiting) w) ready.

(** The events: the listener of the floating button runs, the preload
    timer fires, a dictionary load ends, the platform changes.  An exception
    that leaves a listener or a timer callback is reported by the browser;
    the state the handler reached stays. *)
Inductive Event : Type :=
  | ButtonMouseDown
  | PreloadTimer
  | BuildDone (p : nat) (result : exn + Tokenizer)
  | PlatformChange (pf : Platform).

Definition handle (ev : Event) (w : World) : World :=
  match ev with
  | ButtonMouseDown => (annotateSelection w).1
  | PreloadTimer =>
      if enabled (script w) then
        match initTokenizer w with
        | (w, Normal p) => add_reaction p PreloadReaction w
        | (w, Throw _) => w
        end
      else w
  | BuildDone p result =>
      if bool_decide (p ∈ builds (runtime w))
      then build_callback p result (finish_build p w)
      else w
  | PlatformChange pf => with_platform pf w
  end.

Definition step (w : World) (ev : Event) : World :=
  run_reactions (handle ev w).

Definition run (w : World) (evs : list Event) : World := foldl step w evs.

(** The state in which the script starts, on a page with the given
    selection. *)
Definition initial_world (sel : option Selection) : World :=
  mkWorld (mkScript None false true None)
          (mkRuntime [] [] [] 0)
          (mkPage sel [] [])
          healthy.

(** What holds of the variables and the runtime at every point: at most one
    load is in flight; while one is, [tokenizerLoading] is set and the
    promise of the load is pending; while [tokenizerLoading] is set no
    tokenizer is there; every pending promise belongs to a load in flight; a
    promise fulfilled with a tokenizer means the tokenizer is set.
    [tokenizerLoading] can be set with no load in flight: after
    [chrome.runtime.getURL] or [build] threw. *)
Record wf_state (w : World) : Prop := mkWfState {
  wf_builds :
    builds (runtime w) = []
    \/ exists p, builds (runtime w) = [p]
                 /\ tokenizerLoading (script w) = true
                 /\ promises (runtime w) !! p = Some Pending;
  wf_loading :
    tokenizerLoading (script w) = true -> tokenizer (script w) = None;
  wf_pending :
    forall p, promises (runtime w) !! p = Some Pending -> p ∈ builds (runtime w);
  wf_fulfilled :
    forall p tk, promises (runtime w) !! p = Some (Fulfilled (Some tk)) ->
                 is_set (tokenizer (script w)) = true
}.

(** What holds between events: the above, and no reaction waits on a
    settled promise. *)
Definition wf (w : World) : Prop :=
  wf_state w
  /\ forall p k, (p, k) ∈ reactions (runtime w) ->
                 promises (runtime w) !! p = Some Pending.

(** Every reaction waits on a promise that exists. *)
Definition reactions_in_range (w : World) : Prop :=
  forall p k, (p, k) ∈ reactions (runtime w) ->
              is_Some (promises (runtime w) !! p).

(** An event other than a dictionary load that succeeds. *)
Definition no_success (ev : Event) : Prop :=
  match ev with
  | BuildDone _ (inr _) => False
  | _ => True
  end.

(** The first thing [annotateSelection] does past its early returns: the
    floating button, if there is one, gets the class [yomimark-loading] and
    the hourglass. *)
Definition loading_shown (w : World) : World :=
  match floatingBtn (script w) with
  | Some b =>
      with_script (set_floatingBtn
        (Some (set_textContent HOURGLASS
                 (classList_add "yomimark-loading" b)))) w
  | None => w
  end.

(** ** Counting events *)

(** The dictionary loads of a sequence of events that ended with an error. *)
Fixpoint failed_loads (evs : list Event) : nat :=
  match evs with
  | [] => 0%nat
  | BuildDone _ (inl _) :: rest => S (failed_loads rest)
  | _ :: rest => failed_loads rest
  end.

(** ** The floating button and the selection handlers

    [createFloatingBtn(x, y)] also gives the button a title and a position;
    the position is computed from the selection rectangle in floating point.
    [Button] carries the class list, the text and whether the button is in
    the page, so these two attributes have no counterpart here.  The
    [mousedown] listener the button gets is the event [ButtonMouseDown]. *)

Definition YOMI : jsstring := [0x8AAD].

Definition set_enabled (b : bool) (s : Script) : Script :=
  mkScript (tokenizer s) (tokenizerLoading s) b (floatingBtn s).

Definition createFloatingBtn (w : World) : World :=
  let w := removeFloatingBtn w in
  with_script (set_floatingBtn
    (Some (mkButton ["yomimark-float-btn"] YOMI true))) w.

(** The callback given to [requestAnimationFrame]. *)
Definition animationFrame (w : World) : World :=
  match floatingBtn (script w) with
  | Some b =>
      with_script (set_floatingBtn
        (Some (classList_add "yomimark-float-btn--visible" b))) w
  | None => w
  end.

(** [e.target]: absent, a node without a class list, or an element with
    its classes. *)
Inductive EventTarget : Type :=
  | NoTarget
  | PlainNode
  | ElementTarget (classes : list string).

(** [e.target && e.target.classList && e.target.classList.contains(cls)]. *)
Definition target_has_class (cls : string) (t : EventTarget) : bool :=
  match t with
  | ElementTarget classes => bool_decide (cls ∈ classes)
  | _ => false
  end.

(** [handleMouseUp] changes no state; the result says whether it set the
    timeout that checks the selection. *)
Definition handleMouseUp (t : EventTarget) (w : World) : bool :=
  if negb (enabled (script w)) then false
  else if target_has_class "yomimark-float-btn" t then false
  else true.

(** How a callback ends: it returns, or an exception leaves it uncaught. *)
Inductive CallbackResult : Type :=
  | Returned (w : World)
  | Uncaught (name : string).

(** The function [handleMouseUp] gives to [setTimeout].
    [selection.getRangeAt(0)] throws when the selection has no range. *)
Definition selectionCheck (w : World) : CallbackResult :=
  let selection := selection (page w) in
  let selectedText :=
    match selection with
    | Some sel => trim (selectionText sel)
    | None => []
    end in
  if (0 <? length selectedText)%nat && containsKanji selectedText then
    match selection with
    | Some sel =>
        match ranges sel with
        | _ :: _ => Returned (createFloatingBtn w)
        | [] => Uncaught "IndexSizeError"
        end
    | None => Uncaught "TypeError"
    end
  else Returned (removeFloatingBtn w).

Definition handleMouseDown (t : EventTarget) (w : World) : World :=
  match t with
  | ElementTarget classes =>
      if negb (bool_decide ("yomimark-float-btn" ∈ classes))
      then removeFloatingBtn w
      else w
  | _ => w
  end.

(** ** The enabled flag and the messages *)

Definition setEnabled (state : bool) (w : World) : World :=
  let w := with_script (set_enabled state) w in
  if negb (enabled (script w)) then removeFloatingBtn w else w.

(** The messages the popup and the background worker send carry a boolean;
    any other message has another [type]. *)
Inductive Message : Type :=
  | SET_ENABLED (enabled : bool)
  | GET_STATUS
  | OtherMessage (type : string).

Inductive Response : Type :=
  | ResponseSuccess
  | ResponseStatus (enabled tokenizerReady : bool).

(** The listener of [chrome.runtime.onMessage]: the new state and what
    [sendResponse] was called with, if it was called. *)
Definition onMessage (message : Message) (w : World) : World * option Response :=
  match message with
  | SET_ENABLED state => (setEnabled state w, Some ResponseSuccess)
  | GET_STATUS =>
      (w, Some (ResponseStatus (enabled (script w))
                               (is_set (tokenizer (script w)))))
  | OtherMessage _ => (w, None)
  end.

(** The callback of [chrome.storage.local.get(["yomimarkEnabled"], ...)];
    the stored value is absent or a boolean. *)
Definition storageLoaded (yomimarkEnabled : option bool) (w : World) : World :=
  match yomimarkEnabled with
  | Some false => with_script (set_enabled false) w
  | _ => w
  end.

(** The handlers of the script as events. *)
Inductive PageEvent : Type :=
  | Core (ev : Event)
  | SelectionTimer
  | MouseDown (t : EventTarget)
  | AnimationFrame
  | MessageReceived (message : Message)
  | StorageLoaded (yomimarkEnabled : option bool).

Definition page_step (w : World) (ev : PageEvent) : World :=
  match ev with
  | Core ev => step w ev
  | SelectionTimer =>
      match selectionCheck w with
      | Returned w' => w'
      | Uncaught _ => w
      end
  | MouseDown t => handleMouseDown t w
  | AnimationFrame => animationFrame w
  | MessageReceived message => (onMessage message w).1
  | StorageLoaded v => storageLoaded v w
  end.

Definition page_run (w : World) (evs : list PageEvent) : World :=
  foldl page_step w evs.

(** The events of [Event] among page events. *)
Fixpoint core_events (evs : list PageEvent) : list Event :=
  match evs with
  | [] => []
  | Core ev :: rest => ev :: core_events rest
  | _ :: rest => core_events rest
  end.

(** What the handlers keep true of the floating button: it is in the page,
    it has its class, no class twice, and it shows U+8AAD, or the hourglass
    together with the class [yomimark-loading]. *)
Definition button_ok (b : Button) : Prop :=
  attached b = true
  /\ "yomimark-float-btn" ∈ classList b
  /\ NoDup (classList b)
  /\ ((textContent b = YOMI /\ "yomimark-loading" ∉ classList b)
      \/ (textContent b = HOURGLASS /\ "yomimark-loading" ∈ classList b)).

Definition floatingBtn_ok (w : World) : Prop :=
  match floatingBtn (script w) with
  | Some b => button_ok b
  | None => True
  end.

(** ** The popup and the background worker

    The browser as these two scripts see it: the stored
    [yomimarkEnabled], absent or a boolean; the tabs, each with the state of
    its content script, or without a content script (a message sent there
    fails, and both scripts ignore the failure); and the id of the tab that
    [chrome.tabs.query({ active: true, currentWindow: true })] puts first. *)
Record Browser : Type := mkBrowser {
  storage : option bool;
  tabs : list (option World);
  activeTab : option nat
}.

(** The elements the popup script holds: the checkbox, the status bar and
    the status text. *)
Record Popup : Type := mkPopup {
  toggleChecked : bool;
  statusBarClasses : list string;
  statusText : jsstring
}.

Definition READY_TEXT : jsstring :=
  lit "Ready " ++ [0x2014] ++ lit " select text to annotate".
Definition DISABLED_TEXT : jsstring := lit "Disabled".

(** [classList.add] and [classList.remove] on a list of classes. *)
Definition classes_add (cls : string) (l : list string) : list string :=
  if bool_decide (cls ∈ l) then l else l ++ [cls].
Definition classes_remove (cls : string) (l : list string) : list string :=
  filter (fun c => c <> cls) l.

Definition updateStatusUI (isEnabled : bool) (pp : Popup) : Popup :=
  if isEnabled then
    mkPopup (toggleChecked pp) (classes_remove "disabled" (statusBarClasses pp))
            READY_TEXT
  else
    mkPopup (toggleChecked pp) (classes_add "disabled" (statusBarClasses pp))
            DISABLED_TEXT.

(** The callback of the popup's [chrome.storage.local.get]:
    [result.yomimarkEnabled !== false]. *)
Definition popupLoaded (yomimarkEnabled : option bool) (pp : Popup) : Popup :=
  let isEnabled :=
    match yomimarkEnabled with
    | Some false => false
    | _ => true
    end in
  updateStatusUI isEnabled
    (mkPopup isEnabled (statusBarClasses pp) (statusText pp)).

(** A message to a tab reaches the listener of its content script, if it
    has one. *)
Definition deliver (message : Message) (tab : option World) : option World :=
  match tab with
  | Some w => Some (onMessage message w).1
  | None => None
  end.

Definition sendMessage (id : nat) (message : Message) (br : Browser) : Browser :=
  mkBrowser (storage br) (alter (deliver message) id (tabs br)) (activeTab br).

(** The popup's listener of [change] on the checkbox. *)
Definition toggleChanged (pp : Popup) (br : Browser) : Popup * Browser :=
  let isEnabled := toggleChecked pp in
  let br := mkBrowser (Some isEnabled) (tabs br) (activeTab br) in
  let br :=
    match activeTab br with
    | Some id => sendMessage id (SET_ENABLED isEnabled) br
    | None => br
    end in
  (updateStatusUI isEnabled pp, br).

(** The background worker's listener of [chrome.runtime.onInstalled]. *)
Definition onInstalled (reason : string) (br : Browser) : Browser :=
  if bool_decide (reason = "install")
  then mkBrowser (Some true) (tabs br) (activeTab br)
  else br.

(** The background worker's listener of [chrome.storage.onChanged];
    [change] is the new value of [yomimarkEnabled] when that key is among
    the changes. *)
Definition storageChanged (change : option bool) (area : string) (br : Browser)
    : Browser :=
  match change with
  | Some isEnabled =>
      if bool_decide (area = "local")
      then mkBrowser (storage br)
                     (map (deliver (SET_ENABLED isEnabled)) (tabs br))
                     (activeTab br)
      else br
  | None => br
  end.

(** * Properties *)

(** ** Code units and code points *)

Lemma codePoints_cases (P : jsstring -> Prop) :
  P [] ->
  (forall c rest, is_lead c = false -> P rest -> P (c :: rest)) ->
  (forall c, is_lead c = true -> P [c]) ->
  (forall c d rest, is_lead c = true -> is_trail d = true ->
     P rest -> P (c :: d :: rest)) ->
  (forall c d rest, is_lead c = true -> is_trail d = false ->
     P (d :: rest) -> P (c :: d :: rest)) ->
  forall s, P s.
Proof.
  intros Hnil Hplain Hlast Hpair Hlone s.
  assert (H : forall n (t : jsstring), (length t <= n)%nat -> P t).
  { induction n as [|n IH]; intros t Hlen.
    - destruct t; [exact Hnil | simpl in Hlen; lia].
    - destruct t as [|c [|d rest]].
      + exact Hnil.
      + destruct (is_lead c) eqn:Hc; [apply Hlast | apply Hplain]; auto.
      + simpl in Hlen.
        destruct (is_lead c) eqn:Hc.
        * destruct (is_trail d) eqn:Hd.
          -- apply Hpair; auto. apply IH. lia.
          -- apply Hlone; auto. apply IH. simpl. lia.
        * apply Hplain; auto. apply IH. simpl. lia. }
  apply (H (length s)). lia.
Qed.

Lemma is_kanji_class c : class_matches KANJI_REGEX c = true <-> is_kanji c.
Proof.
  unfold class_matches, KANJI_REGEX, is_kanji. simpl.
  rewrite !orb_true_iff, !andb_true_iff, !Z.leb_le. intuition lia.
Qed.

Lemma lead_not_kanji c : is_lead c = true -> ~ is_kanji c.
Proof.
  unfold is_lead, is_kanji. rewrite andb_true_iff, !Z.leb_le. lia.
Qed.

Lemma pair_not_kanji c d :
  is_lead c = true -> is_trail d = true -> ~ is_kanji (pair_code_point c d).
Proof.
  unfold is_lead, is_trail, is_kanji, pair_code_point.
  rewrite !andb_true_iff, !Z.leb_le. lia.
Qed.

Lemma trail_not_kanji d : is_trail d = true -> ~ is_kanji d.
Proof.
  unfold is_trail, is_kanji. rewrite andb_true_iff, !Z.leb_le. lia.
Qed.

Lemma containsKanji_units (s : jsstring) :
  containsKanji s = true <-> exists c, c ∈ s /\ is_kanji c.
Proof.
  unfold containsKanji, regex_test.
  induction s as [|c s IH]; cbn [existsb].
  - split; [discriminate | intros (c & Hc & _); inversion Hc].
  - rewrite orb_true_iff, IH, is_kanji_class. split.
    + intros [H | (d & Hd & Hk)].
      * exists c. split; [left | done].
      * exists d. split; [by right | done].
    + intros (d & Hd & Hk). apply elem_of_cons in Hd as [-> | Hd]; eauto.
Qed.

Lemma kanji_units_points (s : jsstring) :
  (exists c, c ∈ s /\ is_kanji c) <-> (exists c, c ∈ codePoints s /\ is_kanji c).
Proof.
  induction s as [| c rest Hc IH | c Hc | c d rest Hc Hd IH | c d rest Hc Hd IH]
    using codePoints_cases.
  - done.
  - simpl. rewrite Hc. split; intros (x & Hx & Hk);
      apply elem_of_cons in Hx as [-> | Hx].
    + exists c. split; [left | done].
    + destruct IH as [IH _]. destruct IH as (y & Hy & Hky); [eauto |].
      exists y. split; [by right | done].
    + exists c. split; [left | done].
    + destruct IH as [_ IH]. destruct IH as (y & Hy & Hky); [eauto |].
      exists y. split; [by right | done].
  - simpl. rewrite Hc. done.
  - simpl. rewrite Hc, Hd. split; intros (x & Hx & Hk).
    + apply elem_of_cons in Hx as [-> | Hx]; [by apply lead_not_kanji in Hk |].
      apply elem_of_cons in Hx as [-> | Hx]; [by apply trail_not_kanji in Hk |].
      destruct IH as [IH _]. destruct IH as (y & Hy & Hky); [eauto |].
      exists y. split; [by right | done].
    + apply elem_of_cons in Hx as [-> | Hx]; [by apply pair_not_kanji in Hk |].
      destruct IH as [_ IH]. destruct IH as (y & Hy & Hky); [eauto |].
      exists y. split; [right; by right | done].
  - change (codePoints (c :: d :: rest)) with
      (if is_lead c then if is_trail d then pair_code_point c d :: codePoints rest
                         else c :: codePoints (d :: rest)
       else c :: codePoints (d :: rest)).
    rewrite Hc, Hd. split; intros (x & Hx & Hk).
    + apply elem_of_cons in Hx as [-> | Hx]; [by apply lead_not_kanji in Hk |].
      destruct IH as [IH _]. destruct IH as (y & Hy & Hky); [eauto |].
      exists y. split; [by right | done].
    + apply elem_of_cons in Hx as [-> | Hx]; [by apply lead_not_kanji in Hk |].
      destruct IH as [_ IH]. destruct IH as (y & Hy & Hky); [eauto |].
      exists y. split; [by right | done].
Qed.

(** ** containsKanji *)

(** C4. [containsKanji s] is true exactly when [s] has a character whose
    code point lies in U+4E00..U+9FFF or U+3400..U+4DBF, whether the
    characters of [s] are taken as code points (surrogate pairs joined) or
    as UTF-16 code units; it is false exactly when no code point of [s]
    lies in these ranges.  The function is total: it yields a boolean for
    every string. *)
Theorem containsKanji_iff (s : jsstring) :
  (containsKanji s = true <-> exists c, c ∈ codePoints s /\ is_kanji c)
  /\ (containsKanji s = true <-> exists c, c ∈ s /\ is_kanji c)
  /\ (containsKanji s = false <-> Forall (fun c => ~ is_kanji c) (codePoints s)).
Proof.
  assert (Hp : containsKanji s = true <-> exists c, c ∈ codePoints s /\ is_kanji c).
  { rewrite containsKanji_units. apply kanji_units_points. }
  split; [exact Hp |]. split; [apply containsKanji_units |].
  rewrite Forall_forall. split.
  - intros Hf c Hc Hk.
    assert (containsKanji s = true) by (apply Hp; eauto). congruence.
  - intros Hall. apply not_true_is_false. intros E.
    apply Hp in E as (c & Hc & Hk). by apply Hall in Hk.
Qed.

(** ** katakanaToHiragana *)

Lemma katakana_class c :
  class_matches KATAKANA_REGEX c = is_convertible_katakana c.
Proof.
  unfold class_matches, KATAKANA_REGEX, is_convertible_katakana.
  cbn [existsb fst snd]. apply orb_false_r.
Qed.

Lemma is_convertible_katakana_spec c :
  is_convertible_katakana c = true <-> 0x30A1 <= c <= 0x30F6.
Proof.
  unfold is_convertible_katakana. rewrite andb_true_iff, !Z.leb_le. lia.
Qed.

Lemma replacer_unit c :
  fromCharCode (jsnum_sub (charCodeAt [c] 0) 0x60) = [(c - 0x60) mod 65536].
Proof. reflexivity. Qed.

Lemma katakanaToHiragana_cons c (s : jsstring) :
  katakanaToHiragana (c :: s) = kana_char c :: katakanaToHiragana s.
Proof.
  unfold katakanaToHiragana. cbn [regex_replace_g].
  rewrite katakana_class. unfold kana_char.
  destruct (is_convertible_katakana c) eqn:E; [| reflexivity].
  rewrite replacer_unit. apply is_convertible_katakana_spec in E.
  rewrite Z.mod_small by lia. reflexivity.
Qed.

Lemma katakanaToHiragana_map (s : jsstring) :
  katakanaToHiragana s = map kana_char s.
Proof.
  induction s as [|c s IH]; [reflexivity |].
  rewrite katakanaToHiragana_cons, IH. reflexivity.
Qed.

Lemma kana_char_fixed c : kana_char (kana_char c) = kana_char c.
Proof.
  unfold kana_char at 2 3.
  destruct (is_convertible_katakana c) eqn:E; unfold kana_char.
  - apply is_convertible_katakana_spec in E.
    destruct (is_convertible_katakana (c - 0x60)) eqn:E'; [| reflexivity].
    apply is_convertible_katakana_spec in E'. lia.
  - by rewrite E.
Qed.

Lemma kana_char_lead c : is_lead (kana_char c) = is_lead c.
Proof.
  unfold kana_char. destruct (is_convertible_katakana c) eqn:E; [| reflexivity].
  apply is_convertible_katakana_spec in E. unfold is_lead.
  apply eq_true_iff_eq. rewrite !andb_true_iff, !Z.leb_le. lia.
Qed.

Lemma kana_char_trail c : is_trail (kana_char c) = is_trail c.
Proof.
  unfold kana_char. destruct (is_convertible_katakana c) eqn:E; [| reflexivity].
  apply is_convertible_katakana_spec in E. unfold is_trail.
  apply eq_true_iff_eq. rewrite !andb_true_iff, !Z.leb_le. lia.
Qed.

Lemma kana_char_surrogate c :
  is_lead c = true \/ is_trail c = true -> kana_char c = c.
Proof.
  unfold kana_char, is_lead, is_trail. rewrite !andb_true_iff, !Z.leb_le.
  intros H. destruct (is_convertible_katakana c) eqn:E; [| reflexivity].
  apply is_convertible_katakana_spec in E. lia.
Qed.

Lemma kana_char_pair c d :
  is_lead c = true -> is_trail d = true ->
  kana_char (pair_code_point c d) = pair_code_point c d.
Proof.
  unfold kana_char, is_lead, is_trail, pair_code_point.
  rewrite !andb_true_iff, !Z.leb_le. intros Hc Hd.
  destruct (is_convertible_katakana _) eqn:E; [| reflexivity].
  apply is_convertible_katakana_spec in E. lia.
Qed.

Lemma codePoints_kana (s : jsstring) :
  codePoints (map kana_char s) = map kana_char (codePoints s).
Proof.
  induction s as [| c rest Hc IH | c Hc | c d rest Hc Hd IH | c d rest Hc Hd IH]
    using codePoints_cases.
  - reflexivity.
  - cbn [map codePoints]. rewrite kana_char_lead, Hc. cbn [map]. by rewrite IH.
  - cbn [map codePoints]. rewrite kana_char_lead, Hc. reflexivity.
  - cbn [map codePoints].
    rewrite kana_char_lead, kana_char_trail, Hc, Hd. cbn [map].
    rewrite IH, kana_char_pair by done.
    by rewrite !kana_char_surrogate by auto.
  - change (codePoints (c :: d :: rest)) with
      (if is_lead c then if is_trail d then pair_code_point c d :: codePoints rest
                         else c :: codePoints (d :: rest)
       else c :: codePoints (d :: rest)).
    change (codePoints (map kana_char (c :: d :: rest))) with
      (if is_lead (kana_char c) then
         if is_trail (kana_char d)
         then pair_code_point (kana_char c) (kana_char d)
                :: codePoints (map kana_char rest)
         else kana_char c :: codePoints (map kana_char (d :: rest))
       else kana_char c :: codePoints (map kana_char (d :: rest))).
    rewrite kana_char_lead, kana_char_trail, Hc, Hd. cbn [map] in *.
    by rewrite IH.
Qed.

(** C5. [katakanaToHiragana] maps each character on its own: one in
    U+30A1..U+30F6 to the character 0x60 below it, every other one to
    itself ([kana_char]); this holds for the code units of the string and
    for its code points alike.  The long-vowel mark U+30FC and the
    katakana U+30F7 just above the range pass through unchanged. *)
Theorem katakanaToHiragana_per_char (s : jsstring) :
  katakanaToHiragana s = map kana_char s
  /\ codePoints (katakanaToHiragana s) = map kana_char (codePoints s)
  /\ katakanaToHiragana [0x30FC] = [0x30FC]
  /\ katakanaToHiragana [0x30F7] = [0x30F7]
  /\ katakanaToHiragana [0x30A1; 0x30F6] = [0x3041; 0x3096].
Proof.
  split; [apply katakanaToHiragana_map |].
  split; [rewrite katakanaToHiragana_map; apply codePoints_kana |].
  repeat split; reflexivity.
Qed.

(** C7. Converting the output of a conversion again changes nothing. *)
Theorem katakanaToHiragana_idempotent (s : jsstring) :
  katakanaToHiragana (katakanaToHiragana s) = katakanaToHiragana s.
Proof.
  rewrite !katakanaToHiragana_map.
  induction s as [|c s IH]; [reflexivity |].
  cbn [map]. by rewrite kana_char_fixed, IH.
Qed.

(** C9. The conversion distributes over concatenation and keeps the number
    of characters, counted in code units or in code points. *)
Theorem katakanaToHiragana_app_length (a b : jsstring) :
  katakanaToHiragana (a ++ b) = katakanaToHiragana a ++ katakanaToHiragana b
  /\ length (katakanaToHiragana a) = length a
  /\ length (codePoints (katakanaToHiragana a)) = length (codePoints a).
Proof.
  rewrite !katakanaToHiragana_map, codePoints_kana.
  split; [apply map_app |]. split; apply length_map.
Qed.

(** ** escapeHTML *)

Lemma escapeHTML_escape_text (s : jsstring) : escapeHTML s = escape_text s.
Proof.
  unfold escapeHTML, createElement, createTextNode, appendChild, innerHTML.
  cbn [app map concat serialize]. apply app_nil_r.
Qed.

Lemma escape_unit_cases c :
  (c = 38 /\ escape_unit c = [38; 97; 109; 112; 59])
  \/ (c = 160 /\ escape_unit c = [38; 110; 98; 115; 112; 59])
  \/ (c = 60 /\ escape_unit c = [38; 108; 116; 59])
  \/ (c = 62 /\ escape_unit c = [38; 103; 116; 59])
  \/ (c <> 38 /\ c <> 160 /\ c <> 60 /\ c <> 62 /\ escape_unit c = [c]).
Proof.
  unfold escape_unit.
  destruct (Z.eqb_spec c 38) as [-> | ?]; [by left |].
  destruct (Z.eqb_spec c 160) as [-> | ?]; [right; by left |].
  destruct (Z.eqb_spec c 60) as [-> | ?]; [do 2 right; by left |].
  destruct (Z.eqb_spec c 62) as [-> | ?]; [do 3 right; by left |].
  do 4 right. done.
Qed.

Lemma markup_inert_plain c (r : jsstring) :
  c <> 38 -> c <> 60 -> c <> 62 -> markup_inert (c :: r) = markup_inert r.
Proof.
  intros H1 H2 H3. cbn [markup_inert].
  apply Z.eqb_neq in H1, H2, H3. by rewrite H1, H2, H3.
Qed.

Lemma decode_text_plain c (r : jsstring) :
  c <> 38 -> decode_text 0 (c :: r) = c :: decode_text 0 r.
Proof.
  intros H1. cbn [decode_text]. apply Z.eqb_neq in H1. by rewrite H1.
Qed.

Lemma escape_text_inert (s : jsstring) : markup_inert (escape_text s) = true.
Proof.
  induction s as [|c s IH]; [reflexivity |].
  cbn [escape_text].
  destruct (escape_unit_cases c)
    as [[-> ->] | [[-> ->] | [[-> ->] | [[-> ->] | (? & ? & ? & ? & ->)]]]].
  - exact IH.
  - exact IH.
  - exact IH.
  - exact IH.
  - cbn [app]. by rewrite markup_inert_plain.
Qed.

Lemma escape_text_decode (s : jsstring) : decode_text 0 (escape_text s) = s.
Proof.
  induction s as [|c s IH]; [reflexivity |].
  cbn [escape_text].
  destruct (escape_unit_cases c)
    as [[-> ->] | [[-> ->] | [[-> ->] | [[-> ->] | (? & ? & ? & ? & ->)]]]].
  - change (decode_text 0 ([38; 97; 109; 112; 59] ++ escape_text s))
      with (38 :: decode_text 0 (escape_text s)). by rewrite IH.
  - change (decode_text 0 ([38; 110; 98; 115; 112; 59] ++ escape_text s))
      with (160 :: decode_text 0 (escape_text s)). by rewrite IH.
  - change (decode_text 0 ([38; 108; 116; 59] ++ escape_text s))
      with (60 :: decode_text 0 (escape_text s)). by rewrite IH.
  - change (decode_text 0 ([38; 103; 116; 59] ++ escape_text s))
      with (62 :: decode_text 0 (escape_text s)). by rewrite IH.
  - cbn [app]. by rewrite decode_text_plain, IH.
Qed.

(** ** buildRubyHTML *)

Lemma has_kanji_cp_iff (s : jsstring) :
  has_kanji_cp s = true <-> exists c, c ∈ codePoints s /\ is_kanji c.
Proof.
  unfold has_kanji_cp. induction (codePoints s) as [|c l IH]; cbn [existsb].
  - split; [discriminate | intros (c & Hc & _); inversion Hc].
  - rewrite orb_true_iff, IH. unfold is_kanji at 2.
    rewrite orb_true_iff, !andb_true_iff, !Z.leb_le. split.
    + intros [H | (d & Hd & Hk)].
      * exists c. split; [left | exact H].
      * exists d. split; [by right | done].
    + intros (d & Hd & Hk). apply elem_of_cons in Hd as [-> | Hd]; eauto.
Qed.

Lemma containsKanji_has_kanji_cp (s : jsstring) :
  containsKanji s = has_kanji_cp s.
Proof.
  apply eq_true_iff_eq.
  rewrite has_kanji_cp_iff, containsKanji_units. apply kanji_units_points.
Qed.

(** One turn of the loop appends the segment the specification describes. *)
Lemma ruby_step_segment (t : Token) (html : jsstring) :
  ruby_step t html = html ++ render_segment (spec_segment t).
Proof.
  unfold ruby_step, spec_segment.
  rewrite containsKanji_has_kanji_cp.
  destruct (has_kanji_cp (surface_form t)); cbn [negb andb]; [| reflexivity].
  destruct (reading t) as [[|c r] |]; cbn [truthy default]; try reflexivity.
  rewrite katakanaToHiragana_map. unfold jsstring_eqb.
  by destruct (bool_decide _).
Qed.

Lemma buildRubyHTML_loop_segments (tokens : list Token) (n i : nat) (html : jsstring) :
  (i + n = length tokens)%nat ->
  buildRubyHTML_loop tokens n i html =
    Normal (html ++ concat (map (fun t => render_segment (spec_segment t))
                                (drop i tokens))).
Proof.
  revert i html. induction n as [|n IH]; intros i html Hlen.
  - cbn [buildRubyHTML_loop]. rewrite drop_ge by lia.
    cbn [map concat]. by rewrite app_nil_r.
  - cbn [buildRubyHTML_loop]. unfold token_at.
    destruct (tokens !! i) as [t|] eqn:Ht.
    + cbn [cbind]. rewrite IH by lia.
      rewrite (drop_S _ _ _ Ht). cbn [map concat].
      by rewrite ruby_step_segment, <- app_assoc.
    + apply lookup_ge_None in Ht. lia.
Qed.

Lemma buildRubyHTML_segments (tokens : list Token) :
  buildRubyHTML tokens = Normal (spec_annotate tokens).
Proof.
  unfold buildRubyHTML, spec_annotate.
  rewrite buildRubyHTML_loop_segments by lia. reflexivity.
Qed.

Lemma escapeHTML_escaped (s : jsstring) : escapeHTML s = escaped s.
Proof.
  rewrite escapeHTML_escape_text. unfold escaped.
  induction s as [|c s IH]; [reflexivity |].
  cbn [escape_text map concat]. rewrite IH. f_equal.
  unfold escape_unit, escaped_char, entity_name.
  destruct (c =? 38); [reflexivity |].
  destruct (c =? 160) eqn:E160.
  - apply Z.eqb_eq in E160. subst c. reflexivity.
  - destruct (c =? 60); [reflexivity |].
    destruct (c =? 62); reflexivity.
Qed.

Lemma render_segment_markup (t : Token) :
  render_segment (spec_segment t) = markup_html (spec_markup t).
Proof.
  unfold spec_segment, spec_markup.
  destruct (negb _); [apply escapeHTML_escaped |].
  destruct (reading t) as [[|c r] |]; try apply escapeHTML_escaped.
  destruct (bool_decide _); [apply escapeHTML_escaped |].
  cbn [render_segment]. rewrite !escapeHTML_escaped.
  generalize (map kana_char (c :: r)), (surface_form t).
  intros hira surface.
  cbn [markup_html map concat attr_html fst snd].
  rewrite !app_nil_r, <- !app_assoc. reflexivity.
Qed.

(** C1. For every token sequence [buildRubyHTML] returns the concatenation,
    in input order, of one segment per token, each the serialisation of the
    markup the specification asks for: the escaped surface form alone when
    the surface form has no kanji, or the reading is absent or empty, or the
    reading normalised to hiragana is the surface form; otherwise the ruby
    element whose base text is the escaped surface form and whose
    annotation is the escaped normalised reading, the parentheses of the
    fallback around it. *)
Theorem buildRubyHTML_annotate (tokens : list Token) :
  buildRubyHTML tokens =
    Normal (concat (map (fun t => markup_html (spec_markup t)) tokens)).
Proof.
  rewrite buildRubyHTML_segments. unfold spec_annotate. f_equal. f_equal.
  induction tokens as [|t tokens IH]; [reflexivity |].
  cbn [map]. by rewrite render_segment_markup, IH.
Qed.

(** In a segment, token text occurs only as the result of [escapeHTML]. *)
Lemma spec_segment_escaped (t : Token) :
  match spec_segment t with
  | Plain text => text = escapeHTML (surface_form t)
  | RubyPair base annotation =>
      base = escapeHTML (surface_form t)
      /\ exists r, reading t = Some r
                   /\ annotation = escapeHTML (katakanaToHiragana r)
  end.
Proof.
  unfold spec_segment.
  destruct (negb _); [reflexivity |].
  destruct (reading t) as [[|c r] |]; try reflexivity.
  destruct (bool_decide _); [reflexivity |].
  split; [reflexivity |]. exists (c :: r).
  by rewrite katakanaToHiragana_map.
Qed.

(** C3. The output of [buildRubyHTML] is a concatenation of segments, one
    per token, in which surface-form and reading text occurs only as the
    result of [escapeHTML]; what [escapeHTML] returns has no [<] and no [>],
    every [&] in it opens a character reference, and read back as character
    data it is the text it was made from.  For the single token with surface
    form [<script>] and no reading the output is [&lt;script&gt;]. *)
Theorem buildRubyHTML_escaped (tokens : list Token) (s : jsstring) :
  (exists segs : list Segment,
     buildRubyHTML tokens = Normal (concat (map render_segment segs))
     /\ Forall2 (fun t seg =>
          match seg with
          | Plain text => text = escapeHTML (surface_form t)
          | RubyPair base annotation =>
              base = escapeHTML (surface_form t)
              /\ exists r, reading t = Some r
                           /\ annotation = escapeHTML (katakanaToHiragana r)
          end) tokens segs)
  /\ markup_inert (escapeHTML s) = true
  /\ decode_text 0 (escapeHTML s) = s
  /\ buildRubyHTML [mkToken (lit "<script>") None] = Normal (lit "&lt;script&gt;").
Proof.
  split.
  - exists (map spec_segment tokens). split.
    + rewrite buildRubyHTML_segments. unfold spec_annotate.
      by rewrite map_map.
    + induction tokens as [|t tokens IH]; cbn [map]; constructor;
        [apply spec_segment_escaped | exact IH].
  - rewrite escapeHTML_escape_text.
    split; [apply escape_text_inert |].
    split; [apply escape_text_decode | reflexivity].
Qed.

(** C8. [buildRubyHTML] returns for every token sequence (no access in the
    loop throws); the empty sequence gives the empty string, and a token
    with an empty surface form adds nothing to the output.  [containsKanji]
    and [katakanaToHiragana] are functions on all strings, the empty one
    included. *)
Theorem buildRubyHTML_total (tokens before after : list Token)
    (r : option jsstring) :
  (exists html, buildRubyHTML tokens = Normal html)
  /\ buildRubyHTML [] = Normal []
  /\ buildRubyHTML (before ++ mkToken [] r :: after) = buildRubyHTML (before ++ after)
  /\ containsKanji [] = false
  /\ katakanaToHiragana [] = [].
Proof.
  split; [eexists; apply buildRubyHTML_segments |].
  split; [reflexivity |].
  split; [| split; reflexivity].
  rewrite !buildRubyHTML_segments. unfold spec_annotate.
  rewrite !map_app, !concat_app. cbn [map concat].
  assert (H : render_segment (spec_segment (mkToken [] r)) = []).
  { unfold spec_segment. cbn. reflexivity. }
  by rewrite H.
Qed.

(** Scenarios of the specification. *)
Example scenario_taberu :
  buildRubyHTML [mkToken [0x98DF; 0x3079; 0x308B] (Some [0x30BF; 0x30D9; 0x30EB])]
  = Normal (RUBY_OPEN ++ [0x98DF; 0x3079; 0x308B] ++ RUBY_MID
            ++ [0x305F; 0x3079; 0x308B] ++ RUBY_CLOSE).
Proof. reflexivity. Qed.

Example scenario_watashi_wa :
  buildRubyHTML [mkToken [0x79C1] (Some [0x30EF; 0x30BF; 0x30B7]);
                 mkToken [0x306F] (Some [0x30CF])]
  = Normal (RUBY_OPEN ++ [0x79C1] ++ RUBY_MID ++ [0x308F; 0x305F; 0x3057]
            ++ RUBY_CLOSE ++ [0x306F]).
Proof. reflexivity. Qed.

Example scenario_hello :
  buildRubyHTML [mkToken (lit "Hello") None] = Normal (lit "Hello").
Proof. reflexivity. Qed.

(** ** The invariant of the event loop *)

Lemma wf_state_ext (w w' : World) :
  tokenizer (script w') = tokenizer (script w) ->
  tokenizerLoading (script w') = tokenizerLoading (script w) ->
  promises (runtime w') = promises (runtime w) ->
  builds (runtime w') = builds (runtime w) ->
  wf_state w -> wf_state w'.
Proof.
  intros Ht Hl Hp Hb [H1 H2 H3 H4].
  constructor; rewrite ?Ht, ?Hl, ?Hp, ?Hb; assumption.
Qed.

Lemma lookup_snoc_Some {A} (l : list A) (x y : A) (i : nat) :
  (l ++ [x]) !! i = Some y -> l !! i = Some y \/ (i = length l /\ x = y).
Proof.
  intros H. destruct (decide (i < length l)%nat) as [Hlt | Hge].
  - left. by rewrite lookup_app_l in H.
  - right. rewrite lookup_app_r in H by lia.
    destruct (i - length l)%nat eqn:E; simpl in H; [| by destruct n].
    split; [lia | congruence].
Qed.

Lemma lookup_snoc_old {A} (l : list A) (x y : A) (i : nat) :
  l !! i = Some y -> (l ++ [x]) !! i = Some y.
Proof. intros H. rewrite lookup_app_l; [done | by eapply lookup_lt_Some]. Qed.

Lemma lookup_snoc_new {A} (l : list A) (x : A) :
  (l ++ [x]) !! length l = Some x.
Proof. rewrite lookup_app_r by lia. by rewrite Nat.sub_diag. Qed.

(** The four ways a call of [initTokenizer] goes. *)
Lemma initTokenizer_cases (w : World) :
  (is_set (tokenizer (script w)) || tokenizerLoading (script w) = true
   /\ initTokenizer w
      = ((new_promise (Fulfilled (tokenizer (script w))) w).1,
         Normal (length (promises (runtime w)))))
  \/ (is_set (tokenizer (script w)) || tokenizerLoading (script w) = false
      /\ exists e, getURL_fault (platform w) = Some e
         /\ initTokenizer w = (with_script (set_tokenizerLoading true) w, Throw e))
  \/ (is_set (tokenizer (script w)) || tokenizerLoading (script w) = false
      /\ getURL_fault (platform w) = None
      /\ exists e, build_fault (platform w) = Some e
         /\ initTokenizer w
            = (count_build (new_promise (Rejected e)
                  (with_script (set_tokenizerLoading true) w)).1,
               Normal (length (promises (runtime w)))))
  \/ (is_set (tokenizer (script w)) || tokenizerLoading (script w) = false
      /\ getURL_fault (platform w) = None
      /\ build_fault (platform w) = None
      /\ initTokenizer w
         = (start_build (length (promises (runtime w)))
              (new_promise Pending
                 (with_script (set_tokenizerLoading true) w)).1,
            Normal (length (promises (runtime w))))).
Proof.
  unfold initTokenizer.
  destruct (is_set (tokenizer (script w)) || tokenizerLoading (script w));
    [by left | right].
  cbn [platform with_script].
  destruct (getURL_fault (platform w)) as [e |]; [left; eauto | right].
  destruct (build_fault (platform w)) as [e |]; [left; eauto | right]; done.
Qed.

Lemma initTokenizer_wf_state (w : World) :
  wf_state w -> wf_state (initTokenizer w).1.
Proof.
  intros [H1 H2 H3 H4].
  destruct (initTokenizer_cases w)
    as [(G & ->) | [(G & e & _ & ->) | [(G & _ & e & _ & ->) | (G & _ & _ & ->)]]];
    cbn [fst].
  - constructor; cbn.
    + destruct H1 as [H1 | (p & Hb & Hl & Hp)]; [by left |].
      right. exists p. split; [done |]. split; [done |].
      by apply lookup_snoc_old.
    + done.
    + intros p Hp. apply lookup_snoc_Some in Hp as [Hp | [_ Hp]]; [auto | done].
    + intros p tk Hp. apply lookup_snoc_Some in Hp as [Hp | [_ Hp]]; [eauto |].
      injection Hp as ->. reflexivity.
  - apply orb_false_iff in G as [Et El].
    assert (Hb : builds (runtime w) = []).
    { destruct H1 as [H1 | (p & _ & Hl & _)]; [done | congruence]. }
    constructor; cbn.
    + by left.
    + intros _. by destruct (tokenizer (script w)).
    + exact H3.
    + intros p tk Hp. apply H4 in Hp. congruence.
  - apply orb_false_iff in G as [Et El].
    assert (Hb : builds (runtime w) = []).
    { destruct H1 as [H1 | (p & _ & Hl & _)]; [done | congruence]. }
    constructor; cbn.
    + by left.
    + intros _. by destruct (tokenizer (script w)).
    + intros p Hp. apply lookup_snoc_Some in Hp as [Hp | [_ Hp]]; [auto | done].
    + intros p tk Hp. apply lookup_snoc_Some in Hp as [Hp | [_ Hp]]; [| done].
      apply H4 in Hp. congruence.
  - apply orb_false_iff in G as [Et El].
    assert (Hb : builds (runtime w) = []).
    { destruct H1 as [H1 | (p & _ & Hl & _)]; [done | congruence]. }
    constructor; cbn.
    + right. exists (length (promises (runtime w))). rewrite Hb.
      split; [done |]. split; [done |]. apply lookup_snoc_new.
    + intros _. by destruct (tokenizer (script w)).
    + intros p Hp. apply lookup_snoc_Some in Hp as [Hp | [-> _]].
      * apply H3 in Hp. rewrite Hb in Hp. inversion Hp.
      * rewrite Hb. left.
    + intros p tk Hp. apply lookup_snoc_Some in Hp as [Hp | [_ Hp]]; [| done].
      apply H4 in Hp. congruence.
Qed.

Lemma initTokenizer_page (w : World) : page (initTokenizer w).1 = page w.
Proof.
  by destruct (initTokenizer_cases w)
    as [(G & ->) | [(G & e & _ & ->) | [(G & _ & e & _ & ->) | (G & _ & _ & ->)]]].
Qed.

Lemma initTokenizer_platform (w : World) :
  platform (initTokenizer w).1 = platform w.
Proof.
  by destruct (initTokenizer_cases w)
    as [(G & ->) | [(G & e & _ & ->) | [(G & _ & e & _ & ->) | (G & _ & _ & ->)]]].
Qed.

Lemma initTokenizer_reactions (w : World) :
  reactions (runtime (initTokenizer w).1) = reactions (runtime w).
Proof.
  by destruct (initTokenizer_cases w)
    as [(G & ->) | [(G & e & _ & ->) | [(G & _ & e & _ & ->) | (G & _ & _ & ->)]]].
Qed.

Lemma initTokenizer_tokenizer (w : World) :
  tokenizer (script (initTokenizer w).1) = tokenizer (script w).
Proof.
  by destruct (initTokenizer_cases w)
    as [(G & ->) | [(G & e & _ & ->) | [(G & _ & e & _ & ->) | (G & _ & _ & ->)]]].
Qed.

Lemma build_callback_wf_state (w : World) (p : nat) (result : exn + Tokenizer) :
  wf_state w -> p ∈ builds (runtime w) ->
  wf_state (build_callback p result (finish_build p w)).
Proof.
  intros [H1 H2 H3 H4] Hin.
  destruct H1 as [H1 | (p0 & Hb & El & Hp0)]; [rewrite H1 in Hin; inversion Hin |].
  rewrite Hb in Hin.
  apply list_elem_of_singleton in Hin as ->.
  assert (Hlt : (p0 < length (promises (runtime w)))%nat)
    by (by eapply lookup_lt_Some).
  assert (Hfin : filter (fun q => q <> p0) (builds (runtime w)) = []).
  { rewrite Hb. cbn. by rewrite decide_False by (intros H; by apply H). }
  unfold build_callback, finish_build, settle.
  destruct result as [err | built]; cbn; rewrite Hp0; constructor; cbn;
    try (left; exact Hfin); try done.
  - intros q Hq. destruct (decide (q = p0)) as [-> | Hne].
    + rewrite list_lookup_insert_eq in Hq by done. done.
    + rewrite list_lookup_insert_ne in Hq by done.
      apply H3 in Hq. rewrite Hb in Hq.
      by apply list_elem_of_singleton in Hq.
  - intros q tk Hq. destruct (decide (q = p0)) as [-> | Hne].
    + rewrite list_lookup_insert_eq in Hq by done. done.
    + rewrite list_lookup_insert_ne in Hq by done. eauto.
  - intros q Hq. destruct (decide (q = p0)) as [-> | Hne].
    + rewrite list_lookup_insert_eq in Hq by done. done.
    + rewrite list_lookup_insert_ne in Hq by done.
      apply H3 in Hq. rewrite Hb in Hq.
      by apply list_elem_of_singleton in Hq.
Qed.

Lemma initTokenizer_promises (w : World) :
  (promises (runtime (initTokenizer w).1) = promises (runtime w)
   /\ exists e, (initTokenizer w).2 = Throw e)
  \/ ((initTokenizer w).2 = Normal (length (promises (runtime w)))
      /\ exists st, promises (runtime (initTokenizer w).1)
                    = promises (runtime w) ++ [st]).
Proof.
  destruct (initTokenizer_cases w)
    as [(G & ->) | [(G & e & _ & ->) | [(G & _ & e & _ & ->) | (G & _ & _ & ->)]]];
    cbn; eauto.
Qed.
Lemma run_reaction_runtime (k : Reaction) (st : PromiseState) (w : World) :
  runtime (run_reaction k st w) = runtime w.
Proof.
  destruct k as [range text |]; [| reflexivity].
  destruct st as [| [tk |] | e]; cbn; try reflexivity.
  destruct (tokenize tk text) as [tokens | e]; cbn; [| reflexivity].
  by destruct (buildRubyHTML tokens).
Qed.

Lemma run_reaction_script (k : Reaction) (st : PromiseState) (w : World) :
  tokenizer (script (run_reaction k st w)) = tokenizer (script w)
  /\ tokenizerLoading (script (run_reaction k st w)) = tokenizerLoading (script w).
Proof.
  destruct k as [range text |]; [| done].
  destruct st as [| [tk |] | e]; cbn; try done.
  destruct (tokenize tk text) as [tokens | e]; cbn; [| done].
  by destruct (buildRubyHTML tokens).
Qed.

(** A property that each reaction keeps holds after all of them. *)
Lemma run_reactions_keeps (P : World -> Prop) (w : World) :
  (forall q k w', P w' -> P (run_reaction k (promise_state q w') w')) ->
  P (with_runtime (set_reactions
       (filter (fun pk => is_pending (promise_state pk.1 w) = true)
               (reactions (runtime w)))) w) ->
  P (run_reactions w).
Proof.
  intros Hstep. unfold run_reactions.
  generalize (filter (fun pk => is_pending (promise_state pk.1 w) = false)
                     (reactions (runtime w))).
  generalize (with_runtime (set_reactions
       (filter (fun pk => is_pending (promise_state pk.1 w) = true)
               (reactions (runtime w)))) w).
  intros w0 ready. revert w0.
  induction ready as [|pk ready IH]; intros w0 Hw0; cbn [foldl]; auto.
Qed.

Lemma run_reactions_wf (w : World) :
  wf_state w -> reactions_in_range w -> wf (run_reactions w).
Proof.
  intros Hw Hr.
  apply (run_reactions_keeps (fun w' =>
    wf w' /\ promises (runtime w') = promises (runtime w))).
  - intros q k w'. generalize (promise_state q w'). intros st [[Hs Hre] Hp].
    pose proof (run_reaction_runtime k st w') as Hrt.
    destruct (run_reaction_script k st w') as [Ht Hl].
    split; [split |].
    + eapply wf_state_ext; [exact Ht | exact Hl | | | exact Hs]; by rewrite Hrt.
    + rewrite Hrt. exact Hre.
    + by rewrite Hrt.
  - split; [split |]; cbn; [| | done].
    + by eapply wf_state_ext; [.. | exact Hw].
    + intros p k Hin. apply list_elem_of_filter in Hin as [Hpend Hin].
      cbn in Hpend. apply Hr in Hin as [st Hst].
      unfold promise_state in Hpend. rewrite Hst in Hpend. cbn in Hpend.
      rewrite Hst. by destruct st.
Qed.


Lemma init_then_react_wf (w w1 : World) (p : nat) (k : Reaction) :
  initTokenizer w = (w1, Normal p) ->
  wf_state w -> reactions_in_range w ->
  wf_state (add_reaction p k w1) /\ reactions_in_range (add_reaction p k w1).
Proof.
  intros E Hw Hr.
  pose proof (initTokenizer_wf_state w Hw) as Hw1.
  pose proof (initTokenizer_reactions w) as Hre.
  destruct (initTokenizer_promises w) as [[_ [e He]] | [Hp (st & Hps)]];
    rewrite E in *; cbn [fst snd] in *; [done |].
  injection Hp as Hp. split.
  - by eapply wf_state_ext; [.. | exact Hw1].
  - intros q k' Hin. cbn in Hin |- *. rewrite Hps.
    apply elem_of_app in Hin as [Hin | Hin].
    + rewrite Hre in Hin. apply Hr in Hin as [x Hx].
      exists x. by apply lookup_snoc_old.
    + apply list_elem_of_singleton in Hin. injection Hin as -> ->.
      exists st. subst p. apply lookup_snoc_new.
Qed.

Lemma init_throws_wf (w w1 : World) (e : exn) :
  initTokenizer w = (w1, Throw e) ->
  wf_state w -> reactions_in_range w ->
  wf_state w1 /\ reactions_in_range w1.
Proof.
  intros E Hw Hr.
  pose proof (initTokenizer_wf_state w Hw) as Hw1.
  pose proof (initTokenizer_reactions w) as Hre.
  destruct (initTokenizer_promises w) as [[Hp _] | [Hp _]];
    rewrite E in *; cbn [fst snd] in *; [| done].
  split; [done |].
  intros q k Hin. rewrite Hp. rewrite Hre in Hin. by apply Hr in Hin.
Qed.

Lemma wf_in_range (w : World) : wf w -> reactions_in_range w.
Proof. intros [_ Hr] p k Hin. rewrite (Hr p k Hin). by eexists. Qed.

Lemma annotateSelection_wf (w : World) :
  wf w ->
  wf_state (annotateSelection w).1 /\ reactions_in_range (annotateSelection w).1.
Proof.
  intros Hw. pose proof (wf_in_range w Hw) as Hr. destruct Hw as [Hs _].
  unfold annotateSelection.
  destruct (selection (page w)) as [sel |]; [| done].
  destruct (ranges sel) as [| range rest]; [done |].
  destruct (trim (selectionText sel)) as [| c text]; [done |].
  destruct (floatingBtn (script w)) as [b |];
    destruct (initTokenizer _) as [w1 [p | e]] eqn:E; cbn [fst];
    (eapply init_then_react_wf || eapply init_throws_wf);
    try exact E; try done;
    by eapply wf_state_ext; [.. | exact Hs].
Qed.

Lemma handle_wf (w : World) (ev : Event) :
  wf w -> wf_state (handle ev w) /\ reactions_in_range (handle ev w).
Proof.
  intros Hw. destruct ev as [| | p result | pf]; cbn [handle].
  - by apply annotateSelection_wf.
  - pose proof (wf_in_range w Hw) as Hr. destruct Hw as [Hs _].
    destruct (enabled (script w)); [| done].
    destruct (initTokenizer w) as [w1 [p | e]] eqn:E.
    + by eapply init_then_react_wf.
    + by eapply init_throws_wf.
  - pose proof (wf_in_range w Hw) as Hr. destruct Hw as [Hs _].
    case_bool_decide as Hin; [| done]. split.
    + by apply build_callback_wf_state.
    + intros q k Hq.
      assert (Hq' : (q, k) ∈ reactions (runtime w)).
      { revert Hq. unfold build_callback, finish_build, settle.
        destruct result; cbn; by destruct (promises (runtime w) !! p) as [[| |]|]. }
      apply Hr in Hq'. apply lookup_lt_is_Some in Hq'.
      apply lookup_lt_is_Some.
      assert (Hlen : length (promises (runtime
                (build_callback p result (finish_build p w))))
              = length (promises (runtime w))).
      { unfold build_callback, finish_build, settle.
        destruct result; cbn;
          destruct (promises (runtime w) !! p) as [[| |]|]; cbn;
          by rewrite ?length_insert. }
      lia.
  - pose proof (wf_in_range w Hw) as Hr. destruct Hw as [Hs _].
    split; [by eapply wf_state_ext; [.. | exact Hs] | done].
Qed.

Lemma step_wf (w : World) (ev : Event) : wf w -> wf (step w ev).
Proof.
  intros Hw. destruct (handle_wf w ev Hw). by apply run_reactions_wf.
Qed.

Lemma run_wf (evs : list Event) (w : World) : wf w -> wf (run w evs).
Proof.
  revert w. induction evs as [|ev evs IH]; intros w Hw; [done |].
  cbn. apply IH. by apply step_wf.
Qed.

Lemma initial_world_wf (sel : option Selection) : wf (initial_world sel).
Proof.
  split; [constructor |]; cbn; try done; [by left |].
  intros p k Hin. inversion Hin.
Qed.

(** Every state the script can reach satisfies the invariant. *)
Lemma reachable_wf (sel : option Selection) (evs : list Event) :
  wf (run (initial_world sel) evs).
Proof. apply run_wf, initial_world_wf. Qed.

(** Reactions touch neither the initialisation state nor the promises. *)
Lemma run_reactions_frame (w : World) :
  tokenizer (script (run_reactions w)) = tokenizer (script w)
  /\ tokenizerLoading (script (run_reactions w)) = tokenizerLoading (script w)
  /\ promises (runtime (run_reactions w)) = promises (runtime w)
  /\ builds (runtime (run_reactions w)) = builds (runtime w)
  /\ buildCalls (runtime (run_reactions w)) = buildCalls (runtime w).
Proof.
  apply (run_reactions_keeps (fun w' =>
    tokenizer (script w') = tokenizer (script w)
    /\ tokenizerLoading (script w') = tokenizerLoading (script w)
    /\ promises (runtime w') = promises (runtime w)
    /\ builds (runtime w') = builds (runtime w)
    /\ buildCalls (runtime w') = buildCalls (runtime w))); [| done].
  intros q k w'. generalize (promise_state q w').
  intros st (H1 & H2 & H3 & H4 & H5).
  destruct (run_reaction_script k st w') as [Ht Hl].
  rewrite run_reaction_runtime, Ht, Hl. done.
Qed.

Lemma promise_state_frame (p : nat) (w w' : World) :
  promises (runtime w') = promises (runtime w) ->
  promise_state p w' = promise_state p w.
Proof. unfold promise_state. by intros ->. Qed.


Lemma run_reaction_platform (k : Reaction) (st : PromiseState) (w : World) :
  platform (run_reaction k st w) = platform w.
Proof.
  destruct k as [range text |]; [| reflexivity].
  destruct st as [| [tk |] | e]; cbn; try reflexivity.
  destruct (tokenize tk text) as [tokens | e]; cbn; [| reflexivity].
  by destruct (buildRubyHTML tokens).
Qed.

Lemma run_reactions_platform (w : World) :
  platform (run_reactions w) = platform w.
Proof.
  apply (run_reactions_keeps (fun w' => platform w' = platform w)); [| done].
  intros q k w' H. by rewrite run_reaction_platform.
Qed.

(** ** initTokenizer *)

(** What a call of [initTokenizer] does to the initialisation state: on the
    guard nothing, and the promise returned is fulfilled with the variable;
    past the guard the flag is set, whether or not a load starts. *)
Lemma initTokenizer_effect (w : World) :
  (is_set (tokenizer (script w)) || tokenizerLoading (script w) = true
   /\ script (initTokenizer w).1 = script w
   /\ builds (runtime (initTokenizer w).1) = builds (runtime w)
   /\ buildCalls (runtime (initTokenizer w).1) = buildCalls (runtime w)
   /\ (initTokenizer w).2 = Normal (length (promises (runtime w)))
   /\ promise_state (length (promises (runtime w))) (initTokenizer w).1
      = Fulfilled (tokenizer (script w)))
  \/ (is_set (tokenizer (script w)) || tokenizerLoading (script w) = false
      /\ tokenizer (script (initTokenizer w).1) = tokenizer (script w)
      /\ tokenizerLoading (script (initTokenizer w).1) = true
      /\ floatingBtn (script (initTokenizer w).1) = floatingBtn (script w)
      /\ (buildCalls (runtime (initTokenizer w).1) <= S (buildCalls (runtime w)))%nat).
Proof.
  destruct (initTokenizer_cases w)
    as [(G & ->) | [(G & e & _ & ->) | [(G & _ & e & _ & ->) | (G & _ & _ & ->)]]];
    [left | right ..]; unfold promise_state; cbn;
    rewrite ?lookup_snoc_new; repeat split; try done; try lia;
    by destruct w as [[] [] [] []].
Qed.

(** What an event handler does to the initialisation state is what its
    call of [initTokenizer], if any, does. *)
Lemma handle_init (w : World) (ev : Event) :
  (tokenizer (script (handle ev w)) = tokenizer (script w)
   /\ tokenizerLoading (script (handle ev w)) = tokenizerLoading (script w)
   /\ builds (runtime (handle ev w)) = builds (runtime w)
   /\ buildCalls (runtime (handle ev w)) = buildCalls (runtime w))
  \/ (is_set (tokenizer (script w)) || tokenizerLoading (script w) = false
      /\ tokenizer (script (handle ev w)) = tokenizer (script w)
      /\ tokenizerLoading (script (handle ev w)) = true
      /\ (buildCalls (runtime (handle ev w)) <= S (buildCalls (runtime w)))%nat)
  \/ (exists p result, ev = BuildDone p result /\ p ∈ builds (runtime w)
      /\ handle ev w = build_callback p result (finish_build p w)).
Proof.
  destruct ev as [| | p result | pf]; cbn [handle].
  - unfold annotateSelection.
    destruct (selection (page w)) as [sel |]; [| by left].
    destruct (ranges sel) as [| range rest]; [by left |].
    destruct (trim (selectionText sel)) as [| c text]; [by left |].
    destruct (floatingBtn (script w)) as [b |];
      match goal with
      | |- context [initTokenizer ?x] =>
          destruct (initTokenizer_effect x) as [(G & Hs & Hb & Hc & _)
                                               | (G & Ht & Hl & _ & Hc)];
          destruct (initTokenizer x) as [w1 [p | e]]
      end; cbn in *;
      first [left; by rewrite Hs, Hb, Hc | right; left; by rewrite Ht, Hl].
  - destruct (enabled (script w)); [| by left].
    destruct (initTokenizer_effect w) as [(G & Hs & Hb & Hc & _)
                                         | (G & Ht & Hl & _ & Hc)];
      destruct (initTokenizer w) as [w1 [p | e]]; cbn in *;
      first [left; by rewrite Hs, Hb, Hc | right; left; by rewrite Ht, Hl].
  - case_bool_decide as Hin; [| by left].
    right. right. by exists p, result.
  - by left.
Qed.

(** [tokenizerLoading] set with no load in flight is a state no event
    leaves: [initTokenizer] stays on its guard and no callback is due. *)
Lemma latched_step (w : World) (ev : Event) :
  tokenizerLoading (script w) = true -> builds (runtime w) = [] ->
  tokenizer (script w) = None ->
  tokenizerLoading (script (step w ev)) = true
  /\ builds (runtime (step w ev)) = []
  /\ tokenizer (script (step w ev)) = None
  /\ buildCalls (runtime (step w ev)) = buildCalls (runtime w).
Proof.
  intros Hl Hb Ht.
  destruct (run_reactions_frame (handle ev w)) as (Ft & Fl & _ & Fb & Fc).
  fold (step w ev) in Ft, Fl, Fb, Fc. rewrite Ft, Fl, Fb, Fc.
  destruct (handle_init w ev)
    as [(H1 & H2 & H3 & H4) | [(G & _) | (p & r & _ & Hin & _)]].
  - by rewrite H1, H2, H3, H4.
  - rewrite Hl, orb_true_r in G. done.
  - rewrite Hb in Hin. inversion Hin.
Qed.

Lemma latched_run (evs : list Event) (w : World) :
  tokenizerLoading (script w) = true -> builds (runtime w) = [] ->
  tokenizer (script w) = None ->
  tokenizerLoading (script (run w evs)) = true
  /\ builds (runtime (run w evs)) = []
  /\ tokenizer (script (run w evs)) = None
  /\ buildCalls (runtime (run w evs)) = buildCalls (runtime w).
Proof.
  revert w. induction evs as [|ev evs IH]; intros w Hl Hb Ht; [done |].
  destruct (latched_step w ev Hl Hb Ht) as (Hl' & Hb' & Ht' & Hc').
  cbn [run foldl]. fold (run (step w ev) evs).
  destruct (IH (step w ev) Hl' Hb' Ht') as (H1 & H2 & H3 & H4).
  by rewrite H1, H2, H3, H4, Hc'.
Qed.

(** When the load in flight ends with an error reported to the callback,
    the state is that of a script that never tried: no tokenizer,
    [tokenizerLoading] cleared, no load in flight, the promise of the load
    rejected with the error; with the platform calls returning, the next
    call of [initTokenizer] starts a load of its own and returns its
    pending promise. *)
Lemma build_error_resets (w : World) (p : nat) (err : exn) :
  wf w -> builds (runtime w) = [p] -> platform w = healthy ->
  tokenizer (script (step w (BuildDone p (inl err)))) = None
  /\ tokenizerLoading (script (step w (BuildDone p (inl err)))) = false
  /\ builds (runtime (step w (BuildDone p (inl err)))) = []
  /\ promise_state p (step w (BuildDone p (inl err))) = Rejected err
  /\ tokenizerLoading
       (script (initTokenizer (step w (BuildDone p (inl err)))).1) = true
  /\ builds (runtime (initTokenizer (step w (BuildDone p (inl err)))).1)
     = [length (promises (runtime w))]
  /\ (initTokenizer (step w (BuildDone p (inl err)))).2
     = Normal (length (promises (runtime w)))
  /\ buildCalls (runtime (initTokenizer (step w (BuildDone p (inl err)))).1)
     = S (buildCalls (runtime w))
  /\ promise_state (length (promises (runtime w)))
       (initTokenizer (step w (BuildDone p (inl err)))).1 = Pending.
Proof.
  intros [[H1 H2 H3 H4] _] Hb Hpf.
  destruct H1 as [H1 | (p0 & Hb0 & El & Hp0)]; [congruence |].
  assert (p0 = p) as -> by congruence.
  specialize (H2 El).
  assert (Hlt : (p < length (promises (runtime w)))%nat)
    by (by eapply lookup_lt_Some).
  set (w' := step w (BuildDone p (inl err))).
  destruct (run_reactions_frame (handle (BuildDone p (inl err)) w))
    as (Ft & Fl & Fp & Fb & Fc).
  pose proof (run_reactions_platform (handle (BuildDone p (inl err)) w)) as Fpf.
  fold (step w (BuildDone p (inl err))) in Ft, Fl, Fp, Fb, Fc, Fpf.
  fold w' in Ft, Fl, Fp, Fb, Fc, Fpf.
  assert (Hh : handle (BuildDone p (inl err)) w
               = build_callback p (inl err) (finish_build p w)).
  { cbn [handle]. rewrite Hb. by rewrite bool_decide_eq_true_2 by left. }
  rewrite Hh in Ft, Fl, Fp, Fb, Fc, Fpf.
  unfold build_callback, finish_build, settle in Ft, Fl, Fp, Fb, Fc, Fpf.
  cbn in Ft, Fl, Fp, Fb, Fc, Fpf. rewrite Hp0 in Ft, Fl, Fp, Fb, Fc, Fpf.
  cbn in Ft, Fl, Fp, Fb, Fc, Fpf. rewrite Hb in Fb. cbn in Fb.
  rewrite decide_False in Fb by (intros H; by apply H).
  assert (Hst : promise_state p w' = Rejected err).
  { unfold promise_state. rewrite Fp, list_lookup_insert_eq by done. done. }
  rewrite H2 in Ft. rewrite Hpf in Fpf.
  split; [exact Ft |]. split; [exact Fl |]. split; [exact Fb |].
  split; [exact Hst |].
  assert (Hlen : length (promises (runtime w')) = length (promises (runtime w)))
    by (by rewrite Fp, length_insert).
  destruct (initTokenizer_cases w')
    as [(G & _) | [(G & e & He & _) | [(G & _ & e & He & _) | (G & _ & _ & ->)]]].
  - rewrite Ft, Fl in G. done.
  - rewrite Fpf in He. done.
  - rewrite Fpf in He. done.
  - cbn. rewrite Fb, Fc, Hlen. do 4 (split; [done |]).
    unfold promise_state. cbn. rewrite <- Hlen. by rewrite lookup_snoc_new.
Qed.

(** C10. [initTokenizer] is called with no tokenizer and no load, and
    [chrome.runtime.getURL] throws, or [build] throws inside the executor:
    the attempt has ended with an error, the call throwing it or returning
    a promise rejected with it, and [tokenizerLoading] stays set with no
    load in flight.  From then on, whatever happens, also when the platform
    works again, the flag stays set, no tokenizer is set and [build] is not
    called again: every later call of [initTokenizer] returns a promise
    fulfilled with [null]. *)
Theorem initTokenizer_throw_latches (sel : option Selection) (e : exn)
    (inBuild : bool) (evs : list Event) :
  let pf := if inBuild then mkPlatform None (Some e) else mkPlatform (Some e) None in
  let w0 := with_platform pf (initial_world sel) in
  let w := run w0 (PreloadTimer :: PlatformChange healthy :: evs) in
  (initTokenizer w0).2 = (if inBuild then Normal 0%nat else Throw e)
  /\ (if inBuild then promise_state 0 (initTokenizer w0).1 = Rejected e else True)
  /\ tokenizerLoading (script (initTokenizer w0).1) = true
  /\ builds (runtime (initTokenizer w0).1) = []
  /\ tokenizerLoading (script w) = true
  /\ tokenizer (script w) = None
  /\ builds (runtime w) = []
  /\ buildCalls (runtime w) = (if inBuild then 1 else 0)%nat
  /\ (initTokenizer w).2 = Normal (length (promises (runtime w)))
  /\ promise_state (length (promises (runtime w))) (initTokenizer w).1
     = Fulfilled None.
Proof.
  cbv zeta.
  set (pf := if inBuild then mkPlatform None (Some e) else mkPlatform (Some e) None).
  set (w0 := with_platform pf (initial_world sel)).
  set (w1 := step w0 PreloadTimer).
  assert (H1 : tokenizerLoading (script w1) = true /\ builds (runtime w1) = []
               /\ tokenizer (script w1) = None
               /\ buildCalls (runtime w1) = (if inBuild then 1 else 0)%nat).
  { subst w1 w0 pf. by destruct inBuild. }
  destruct H1 as (Hl & Hb & Ht & Hc).
  split; [subst w0 pf; by destruct inBuild |].
  split; [subst w0 pf; by destruct inBuild |].
  split; [subst w0 pf; by destruct inBuild |].
  split; [subst w0 pf; by destruct inBuild |].
  change (run w0 (PreloadTimer :: PlatformChange healthy :: evs))
    with (run w1 (PlatformChange healthy :: evs)).
  destruct (latched_run (PlatformChange healthy :: evs) w1 Hl Hb Ht)
    as (Hl' & Hb' & Ht' & Hc').
  split; [exact Hl' |]. split; [exact Ht' |]. split; [exact Hb' |].
  split; [by rewrite Hc' |].
  destruct (initTokenizer_effect (run w1 (PlatformChange healthy :: evs)))
    as [(_ & _ & _ & _ & Hr & Hp) | (G & _)].
  - by rewrite Hr, Hp, Ht'.
  - rewrite Hl', orb_true_r in G. done.
Qed.

(** C2. Two calls of [initTokenizer] from the starting state, the second
    while the load of the first is in flight: both return, [build] is
    called once, the first caller holds the pending promise of the load,
    and the second caller holds a promise that is already fulfilled with
    [null].  When the load then ends, the first caller receives the
    tokenizer or the error; the second holds [null] in both cases, so the
    two callers do not receive the same result. *)
Theorem initTokenizer_second_call_null (sel : option Selection)
    (built : Tokenizer) (err : exn) :
  exists w1 p1 w2 p2,
    initTokenizer (initial_world sel) = (w1, Normal p1)
    /\ initTokenizer w1 = (w2, Normal p2)
    /\ buildCalls (runtime w2) = 1%nat
    /\ builds (runtime w2) = [p1]
    /\ promise_state p1 w2 = Pending
    /\ promise_state p2 w2 = Fulfilled None
    /\ promise_state p1 (step w2 (BuildDone p1 (inr built))) = Fulfilled (Some built)
    /\ promise_state p2 (step w2 (BuildDone p1 (inr built))) = Fulfilled None
    /\ promise_state p1 (step w2 (BuildDone p1 (inl err))) = Rejected err
    /\ promise_state p2 (step w2 (BuildDone p1 (inl err))) = Fulfilled None.
Proof.
  do 4 eexists. split; [reflexivity |]. split; [reflexivity |].
  repeat split; reflexivity.
Qed.

(** The same on the page: the button is pressed while the preload is in
    flight; the load succeeds, and yet the annotation fails with the
    [TypeError] of calling [tokenize] on [null] and nothing is inserted. *)
Example annotate_during_preload (built : Tokenizer) :
  let sel := mkSelection [7%nat] [0x6F22; 0x5B57] in
  let w := run (initial_world (Some sel))
               [PreloadTimer; ButtonMouseDown; BuildDone 0 (inr built)] in
  insertions (page w) = []
  /\ console (page w) =
       [LogError "[YomiMark] Annotation failed:"
          (TypeError "Cannot read properties of null (reading 'tokenize')");
        LogInfo "[YomiMark] Tokenizer ready"]
  /\ buildCalls (runtime w) = 1%nat.
Proof. cbv zeta. repeat split; reflexivity. Qed.
(** ** annotateSelection *)

(** Unless the promise was fulfilled with a tokenizer, the reaction leaves
    the page's content and selection as they are. *)
Lemma run_reaction_no_tokenizer (k : Reaction) (st : PromiseState) (w : World) :
  (forall tk, st <> Fulfilled (Some tk)) ->
  insertions (page (run_reaction k st w)) = insertions (page w)
  /\ selection (page (run_reaction k st w)) = selection (page w).
Proof.
  intros Hst. destruct k as [range text |]; [| done].
  destruct st as [| [tk |] | e]; cbn; try done.
  by destruct (Hst tk).
Qed.

Lemma handle_page (w : World) (ev : Event) :
  no_success ev ->
  insertions (page (handle ev w)) = insertions (page w)
  /\ selection (page (handle ev w)) = selection (page w)
  /\ tokenizer (script (handle ev w)) = tokenizer (script w).
Proof.
  intros Hev. destruct ev as [| | p [err | built] | pf]; cbn [handle];
    [| | | done | done].
  - unfold annotateSelection.
    destruct (selection (page w)) as [sel |] eqn:Hsel;
      [| cbn; by rewrite ?Hsel].
    destruct (ranges sel) as [| range rest]; [cbn; by rewrite ?Hsel |].
    destruct (trim (selectionText sel)) as [| c text]; [cbn; by rewrite ?Hsel |].
    destruct (floatingBtn (script w)) as [b |];
      match goal with
      | |- context [initTokenizer ?x] =>
          pose proof (initTokenizer_page x) as Hp;
          pose proof (initTokenizer_tokenizer x) as Ht;
          destruct (initTokenizer x) as [w1 [p | e]]
      end; cbn in *; by rewrite Hp, Ht.
  - destruct (enabled (script w)); [| done].
    pose proof (initTokenizer_page w) as Hp.
    pose proof (initTokenizer_tokenizer w) as Ht.
    destruct (initTokenizer w) as [w1 [p | e]]; cbn in *; by rewrite Hp, Ht.
  - case_bool_decide; [| done].
    unfold build_callback, finish_build, settle. cbn.
    by destruct (promises (runtime w) !! p) as [[| |]|].
Qed.


(** While there is no tokenizer and no load succeeds, nothing is inserted
    and the selection stays. *)
Lemma step_no_tokenizer (w : World) (ev : Event) :
  wf w -> tokenizer (script w) = None -> no_success ev ->
  tokenizer (script (step w ev)) = None
  /\ insertions (page (step w ev)) = insertions (page w)
  /\ selection (page (step w ev)) = selection (page w).
Proof.
  intros Hw Htk Hev.
  destruct (handle_wf w ev Hw) as [[_ _ _ Hful] _].
  destruct (handle_page w ev Hev) as (Hi & Hs & Ht).
  rewrite Htk in Ht. rewrite Ht in Hful.
  destruct (run_reactions_frame (handle ev w)) as (Ft & _).
  fold (step w ev) in Ft. rewrite Ft, Ht. split; [done |].
  rewrite <- Hi, <- Hs. unfold step.
  apply (run_reactions_keeps (fun w' =>
    promises (runtime w') = promises (runtime (handle ev w))
    /\ insertions (page w') = insertions (page (handle ev w))
    /\ selection (page w') = selection (page (handle ev w)))); [| done].
  intros q k w' (Hp & Hi' & Hs').
  destruct (run_reaction_no_tokenizer k (promise_state q w') w') as [Hri Hrs].
  { intros tk Hq. unfold promise_state in Hq. rewrite Hp in Hq.
    destruct (promises (runtime (handle ev w)) !! q) as [st |] eqn:E; [| done].
    cbn in Hq. subst st. by apply Hful in E. }
  by rewrite run_reaction_runtime, Hri, Hrs.
Qed.

Lemma run_no_tokenizer (evs : list Event) (w : World) :
  wf w -> tokenizer (script w) = None -> Forall no_success evs ->
  tokenizer (script (run w evs)) = None
  /\ insertions (page (run w evs)) = insertions (page w)
  /\ selection (page (run w evs)) = selection (page w).
Proof.
  revert w. induction evs as [|ev evs IH]; intros w Hw Htk Hall; [done |].
  apply Forall_cons in Hall as [Hev Hall].
  destruct (step_no_tokenizer w ev Hw Htk Hev) as (Ht & Hi & Hs).
  cbn [run foldl]. fold (run (step w ev) evs).
  destruct (IH (step w ev) (step_wf w ev Hw) Ht Hall) as (Ht' & Hi' & Hs').
  by rewrite Ht', Hi', Hs', Hi, Hs.
Qed.

Lemma run_reactions_waiting (w : World) (p : nat) (k : Reaction) :
  reactions (runtime w) = [(p, k)] -> promise_state p w = Pending ->
  run_reactions w = with_runtime (set_reactions [(p, k)]) w.
Proof.
  intros Hre Hst. unfold run_reactions. rewrite Hre.
  rewrite !filter_cons, !filter_nil. cbn [fst]. rewrite Hst. cbn [is_pending].
  rewrite decide_True by done. rewrite decide_False by done. reflexivity.
Qed.

Lemma run_reactions_ready (w : World) (p : nat) (k : Reaction) :
  reactions (runtime w) = [(p, k)] ->
  is_pending (promise_state p w) = false ->
  run_reactions w =
    run_reaction k (promise_state p w) (with_runtime (set_reactions []) w).
Proof.
  intros Hre Hst. unfold run_reactions. rewrite Hre.
  rewrite !filter_cons, !filter_nil. cbn [fst]. rewrite Hst.
  rewrite decide_False by done. rewrite decide_True by done. reflexivity.
Qed.

(** C6. The button is pressed on a selection while there is no tokenizer
    and none is loading, and the load this starts ends with an error.  Then
    nothing is inserted into the page and the selection is what it was; the
    failure is reported on the console, by the callback of the load and by
    the [.catch] of [annotateSelection], each with the error of the load;
    the floating button is removed and there is still no tokenizer.  More
    generally, over any sequence of events in which no load succeeds,
    nothing is inserted. *)

Lemma filter_keeps_all {A} (P : A -> Prop) `{!forall x, Decision (P x)} (l : list A) :
  (forall x, x ∈ l -> P x) -> filter P l = l.
Proof.
  induction l as [|x l IH]; intros Hall; [done |].
  rewrite filter_cons, decide_True by (apply Hall; left).
  f_equal. apply IH. intros y Hy. apply Hall. by right.
Qed.

Lemma filter_keeps_none {A} (P : A -> Prop) `{!forall x, Decision (P x)} (l : list A) :
  (forall x, x ∈ l -> ~ P x) -> filter P l = [].
Proof.
  induction l as [|x l IH]; intros Hall; [done |].
  rewrite filter_cons, decide_False by (apply Hall; left).
  apply IH. intros y Hy. apply Hall. by right.
Qed.

(** All reactions but the last wait on pending promises and the last is on
    a settled one: the last runs. *)
Lemma run_reactions_last (w : World) (rs : list (nat * Reaction)) (p : nat)
    (k : Reaction) :
  reactions (runtime w) = rs ++ [(p, k)] ->
  (forall q k', (q, k') ∈ rs -> is_pending (promise_state q w) = true) ->
  is_pending (promise_state p w) = false ->
  run_reactions w =
    run_reaction k (promise_state p w) (with_runtime (set_reactions rs) w).
Proof.
  intros Hre Hrs Hp. unfold run_reactions. rewrite Hre, !filter_app.
  rewrite (filter_keeps_all _ rs) by (intros [q k'] Hin; by apply (Hrs q k')).
  rewrite (filter_keeps_none _ rs).
  2:{ intros [q k'] Hin. cbn. rewrite (Hrs q k' Hin). done. }
  rewrite !filter_cons, !filter_nil. cbn [fst]. rewrite Hp.
  rewrite decide_False by done. rewrite decide_True by done.
  by rewrite app_nil_r.
Qed.

(** The button pressed on a selection while [tokenizerLoading] is set and
    no tokenizer is there: the handle is [null], [tk.tokenize] throws, and
    the [.catch] logs the [TypeError]. *)
Lemma press_flagged (w : World) (sel : Selection) (range : nat) :
  wf w -> tokenizer (script w) = None -> tokenizerLoading (script w) = true ->
  selection (page w) = Some sel -> ranges sel !! 0%nat = Some range ->
  trim (selectionText sel) <> [] ->
  (annotateSelection w).2 = Normal tt
  /\ page (step w ButtonMouseDown)
     = console_write
         (LogError "[YomiMark] Annotation failed:"
            (TypeError "Cannot read properties of null (reading 'tokenize')"))
         (page w)
  /\ floatingBtn (script (step w ButtonMouseDown)) = None
  /\ builds (runtime (step w ButtonMouseDown)) = builds (runtime w)
  /\ reactions (runtime (step w ButtonMouseDown)) = reactions (runtime w).
Proof.
  intros Hw Htk Hl Hsel Hrange Hne.
  destruct Hw as [_ Hre].
  destruct (ranges sel) as [| range' rest] eqn:Hrs; [done |].
  destruct (trim (selectionText sel)) as [| c text] eqn:Htr; [done |].
  destruct w as [[tk0 ld en fb] [ps rs bs bc] pg pf].
  cbn in Htk, Hl, Hsel, Hre. subst tk0 ld.
  assert (Hpend : forall q k', (q, k') ∈ rs ->
            (ps ++ [Fulfilled None]) !! q = Some Pending).
  { intros q k' Hin. apply lookup_snoc_old. by apply (Hre q k'). }
  set (fb' := match fb with
              | Some b => Some (set_textContent HOURGLASS
                                  (classList_add "yomimark-loading" b))
              | None => None
              end).
  assert (E : annotateSelection
                (mkWorld (mkScript None true en fb) (mkRuntime ps rs bs bc) pg pf)
              = (mkWorld (mkScript None true en fb')
                   (mkRuntime (ps ++ [Fulfilled None])
                      (rs ++ [(length ps, AnnotateReaction range' (c :: text))])
                      bs bc) pg pf,
                 Normal tt)).
  { unfold annotateSelection. cbn [page]. rewrite Hsel, Hrs, Htr.
    subst fb'. by destruct fb. }
  unfold step, handle. rewrite E. cbn [fst snd]. split; [done |].
  rewrite run_reactions_last
    with (rs := rs) (p := length ps) (k := AnnotateReaction range' (c :: text));
    [ unfold promise_state; cbn; rewrite lookup_snoc_new; cbn; done
    | reflexivity
    | intros q k' Hin; unfold promise_state; cbn; by rewrite (Hpend q k' Hin)
    | unfold promise_state; cbn; by rewrite lookup_snoc_new ].
Qed.

Lemma lookup_head_cons {A} (l : list A) (x : A) :
  l !! 0%nat = Some x -> exists rest, l = x :: rest.
Proof. destruct l as [|y l]; [done |]. intros [= ->]. by eexists. Qed.

Lemma wf_idle (w : World) :
  wf w -> tokenizerLoading (script w) = false ->
  builds (runtime w) = [] /\ reactions (runtime w) = [].
Proof.
  intros [[H1 _ H3 _] Hr] Hl.
  assert (Hb : builds (runtime w) = []).
  { destruct H1 as [H1 | (p & _ & Hl' & _)]; [done | congruence]. }
  split; [done |].
  destruct (reactions (runtime w)) as [| [q k] l]; [done |].
  specialize (Hr q k ltac:(left)). apply H3 in Hr. rewrite Hb in Hr.
  inversion Hr.
Qed.

(** The button pressed while there is no tokenizer and the flag is clear,
    the platform calls returning: a load starts and the reaction waits for
    it. *)
Lemma press_idle (w : World) (sel : Selection) (range : nat)
    (c : Z) (text : jsstring) :
  wf w -> tokenizer (script w) = None -> tokenizerLoading (script w) = false ->
  platform w = healthy ->
  selection (page w) = Some sel -> ranges sel !! 0%nat = Some range ->
  trim (selectionText sel) = c :: text ->
  (annotateSelection w).2 = Normal tt
  /\ step w ButtonMouseDown =
    mkWorld (mkScript None true (enabled (script w))
               (match floatingBtn (script w) with
                | Some b => Some (set_textContent HOURGLASS
                                    (classList_add "yomimark-loading" b))
                | None => None
                end))
      (mkRuntime (promises (runtime w) ++ [Pending])
         [(length (promises (runtime w)), AnnotateReaction range (c :: text))]
         [length (promises (runtime w))] (S (buildCalls (runtime w))))
      (page w) healthy.
Proof.
  intros Hw Htk Hl Hpf Hsel Hrange Htr.
  destruct (wf_idle w Hw Hl) as (Hb & Hre).
  apply lookup_head_cons in Hrange as [rest Hrs].
  destruct w as [[tk0 ld en fb] [ps rs bs bc] pg pf].
  cbn in Htk, Hl, Hb, Hre, Hsel, Hpf. subst tk0 ld bs rs pf.
  unfold step, handle, annotateSelection. cbn [page]. rewrite Hsel, Hrs, Htr.
  cbn [script floatingBtn].
  destruct fb as [b |]; (split; [reflexivity |]);
    (rewrite run_reactions_waiting
       with (p := length ps) (k := AnnotateReaction range (c :: text));
     [reflexivity | reflexivity
     | unfold promise_state; cbn; by rewrite lookup_snoc_new]).
Qed.

(** The same press when [build] throws inside the executor: the promise is
    rejected at once and the [.catch] logs the error. *)
Lemma press_idle_build_throws (w : World) (sel : Selection) (range : nat)
    (e : exn) :
  wf w -> tokenizer (script w) = None -> tokenizerLoading (script w) = false ->
  getURL_fault (platform w) = None -> build_fault (platform w) = Some e ->
  selection (page w) = Some sel -> ranges sel !! 0%nat = Some range ->
  trim (selectionText sel) <> [] ->
  (annotateSelection w).2 = Normal tt
  /\ page (step w ButtonMouseDown)
     = console_write (LogError "[YomiMark] Annotation failed:" e) (page w)
  /\ floatingBtn (script (step w ButtonMouseDown)) = None
  /\ tokenizerLoading (script (step w ButtonMouseDown)) = true
  /\ builds (runtime (step w ButtonMouseDown)) = [].
Proof.
  intros Hw Htk Hl Hg Hbf Hsel Hrange Hne.
  destruct (wf_idle w Hw Hl) as (Hb & Hre).
  apply lookup_head_cons in Hrange as [rest Hrs].
  destruct (trim (selectionText sel)) as [| c text] eqn:Htr; [done |].
  destruct w as [[tk0 ld en fb] [ps rs bs bc] pg [gu bu]].
  cbn in Htk, Hl, Hb, Hre, Hsel, Hg, Hbf. subst tk0 ld bs rs gu bu.
  unfold step, handle, annotateSelection. cbn [page]. rewrite Hsel, Hrs, Htr.
  cbn [script floatingBtn].
  destruct fb as [b |]; (split; [reflexivity |]);
    (rewrite run_reactions_ready
       with (p := length ps) (k := AnnotateReaction range (c :: text));
     [ unfold promise_state; cbn; rewrite lookup_snoc_new; cbn; done
     | reflexivity
     | unfold promise_state; cbn; by rewrite lookup_snoc_new ]).
Qed.

(** The same press when [chrome.runtime.getURL] throws: the exception leaves
    [annotateSelection]; nothing is logged by the script, and the flag stays
    set. *)
Lemma press_idle_getURL_throws (w : World) (sel : Selection) (range : nat)
    (e : exn) :
  wf w -> tokenizer (script w) = None -> tokenizerLoading (script w) = false ->
  getURL_fault (platform w) = Some e ->
  selection (page w) = Some sel -> ranges sel !! 0%nat = Some range ->
  trim (selectionText sel) <> [] ->
  (annotateSelection w).2 = Throw e
  /\ page (step w ButtonMouseDown) = page w
  /\ tokenizerLoading (script (step w ButtonMouseDown)) = true
  /\ builds (runtime (step w ButtonMouseDown)) = [].
Proof.
  intros Hw Htk Hl Hg Hsel Hrange Hne.
  destruct (wf_idle w Hw Hl) as (Hb & Hre).
  apply lookup_head_cons in Hrange as [rest Hrs].
  destruct (trim (selectionText sel)) as [| c text] eqn:Htr; [done |].
  destruct w as [[tk0 ld en fb] [ps rs bs bc] pg [gu bu]].
  cbn in Htk, Hl, Hb, Hre, Hsel, Hg. subst tk0 ld bs rs gu.
  unfold step, handle, annotateSelection. cbn [page]. rewrite Hsel, Hrs, Htr.
  cbn [script floatingBtn].
  by destruct fb as [b |].
Qed.

(** A load in flight, with one reaction of [annotateSelection] waiting on
    it, ends with an error: the callback logs it, the [.catch] logs it and
    removes the button. *)
Lemma waiting_press_load_fails (s : Script) (ps : list PromiseState)
    (range : nat) (text : jsstring) (bc : nat) (pg : Page) (pf : Platform)
    (err : exn) :
  step (mkWorld s
          (mkRuntime (ps ++ [Pending])
             [(length ps, AnnotateReaction range text)] [length ps] bc)
          pg pf)
       (BuildDone (length ps) (inl err))
  = mkWorld (mkScript (tokenizer s) false (enabled s) None)
      (mkRuntime (<[length ps := Rejected err]> (ps ++ [Pending])) [] [] bc)
      (console_write (LogError "[YomiMark] Annotation failed:" err)
         (console_write (LogError "[YomiMark] Failed to load tokenizer:" err)
            pg))
      pf.
Proof.
  unfold step, handle. cbn [runtime builds].
  rewrite bool_decide_eq_true_2 by left.
  unfold build_callback, finish_build, settle. cbn.
  rewrite lookup_snoc_new.
  unfold with_runtime, with_page, with_script, set_tokenizerLoading.
  cbn [script runtime page platform promises reactions builds buildCalls
       tokenizer tokenizerLoading enabled floatingBtn].
  rewrite filter_cons, filter_nil, decide_False by (intros H; by apply H).
  rewrite run_reactions_ready
    with (p := length ps) (k := AnnotateReaction range text);
    [| reflexivity
     | unfold promise_state; cbn;
       rewrite list_lookup_insert_eq by (rewrite length_app; cbn; lia);
       reflexivity].
  unfold promise_state. cbn.
  rewrite list_lookup_insert_eq by (rewrite length_app; cbn; lia).
  reflexivity.
Qed.

(** C6, as the code has it.  The button is pressed on a selection while no
    tokenizer is set, and no load succeeds.  Then no markup is inserted and
    the selection is what it was, whatever events follow.  The failure is
    not handed to the caller: [annotateSelection] returns [undefined] and
    its [.catch] writes the failure to the console and removes the floating
    button, be it the error of the load it started, the exception of
    [build], or the [TypeError] of using the [null] handle it gets while
    [tokenizerLoading] is set.  Only an exception of
    [chrome.runtime.getURL] leaves [annotateSelection]; then nothing is
    written. *)
Theorem annotateSelection_init_failure (w : World) (sel : Selection)
    (range : nat) (err : exn) (evs : list Event) :
  wf w -> tokenizer (script w) = None ->
  selection (page w) = Some sel -> ranges sel !! 0%nat = Some range ->
  trim (selectionText sel) <> [] ->
  Forall no_success evs ->
  insertions (page (run w evs)) = insertions (page w)
  /\ selection (page (run w evs)) = selection (page w)
  /\ tokenizer (script (run w evs)) = None
  /\ match tokenizerLoading (script w), getURL_fault (platform w),
           build_fault (platform w) with
     | true, _, _ =>
         (annotateSelection w).2 = Normal tt
         /\ page (step w ButtonMouseDown)
            = console_write
                (LogError "[YomiMark] Annotation failed:"
                   (TypeError "Cannot read properties of null (reading 'tokenize')"))
                (page w)
         /\ floatingBtn (script (step w ButtonMouseDown)) = None
     | false, Some e, _ =>
         (annotateSelection w).2 = Throw e
         /\ page (step w ButtonMouseDown) = page w
     | false, None, Some e =>
         (annotateSelection w).2 = Normal tt
         /\ page (step w ButtonMouseDown)
            = console_write (LogError "[YomiMark] Annotation failed:" e) (page w)
         /\ floatingBtn (script (step w ButtonMouseDown)) = None
     | false, None, None =>
         (annotateSelection w).2 = Normal tt
         /\ page (step w ButtonMouseDown) = page w
         /\ page (run w [ButtonMouseDown;
                         BuildDone (length (promises (runtime w))) (inl err)])
            = console_write (LogError "[YomiMark] Annotation failed:" err)
                (console_write
                   (LogError "[YomiMark] Failed to load tokenizer:" err)
                   (page w))
         /\ floatingBtn
              (script (run w [ButtonMouseDown;
                              BuildDone (length (promises (runtime w))) (inl err)]))
            = None
     end.
Proof.
  intros Hw Htk Hsel Hrange Hne Hevs.
  destruct (run_no_tokenizer evs w Hw Htk Hevs) as (He1 & He2 & He3).
  split; [exact He2 |]. split; [exact He3 |]. split; [exact He1 |].
  destruct (tokenizerLoading (script w)) eqn:Hl.
  - destruct (press_flagged w sel range Hw Htk Hl Hsel Hrange Hne)
      as (H1 & H2 & H3 & _). done.
  - destruct (getURL_fault (platform w)) as [e |] eqn:Hg.
    + destruct (press_idle_getURL_throws w sel range e Hw Htk Hl Hg Hsel Hrange Hne)
        as (H1 & H2 & _). done.
    + destruct (build_fault (platform w)) as [e |] eqn:Hbf.
      * destruct (press_idle_build_throws w sel range e Hw Htk Hl Hg Hbf Hsel
                    Hrange Hne) as (H1 & H2 & H3 & _). done.
      * assert (Hpf : platform w = healthy).
        { destruct (platform w) as [gu bu]. cbn in Hg, Hbf. by subst. }
        destruct (trim (selectionText sel)) as [| c text] eqn:Htr; [done |].
        destruct (press_idle w sel range c text Hw Htk Hl Hpf Hsel Hrange Htr)
          as [H1 H2].
        split; [exact H1 |]. cbn [run foldl]. rewrite H2.
        rewrite waiting_press_load_fails. done.
Qed.

Lemma annotateSelection_init_failure_witness :
  let sel := mkSelection [7%nat] [0x6F22; 0x5B57] in
  let w := initial_world (Some sel) in
  wf w /\ trim (selectionText sel) <> []
  /\ insertions (page (run w [ButtonMouseDown; BuildDone 0 (inl (DictError 0))]))
     = [].
Proof.
  cbv zeta.
  assert (Hwf : wf (initial_world (Some (mkSelection [7%nat] [0x6F22; 0x5B57]))))
    by apply initial_world_wf.
  assert (Htrim : trim (selectionText (mkSelection [7%nat] [0x6F22; 0x5B57])) <> [])
    by discriminate.
  assert (Hev : Forall no_success [ButtonMouseDown; BuildDone 0%nat (inl (DictError 0))])
    by (repeat constructor).
  split; [exact Hwf |]. split; [exact Htrim |].
  exact (proj1 (annotateSelection_init_failure _ _ 7%nat (DictError 0)
                  [ButtonMouseDown; BuildDone 0%nat (inl (DictError 0))]
                  Hwf eq_refl eq_refl eq_refl Htrim Hev)).
Defined.

(** C6, as the claim words it, fails: the load that [annotateSelection]
    started ends with an error, the promise of [initTokenizer] is rejected
    with it, and the call of [annotateSelection] had returned [undefined];
    no exception reaches the caller. *)
Lemma annotateSelection_failure_not_surfaced :
  let sel := mkSelection [7%nat] [0x6F22; 0x5B57] in
  let w := initial_world (Some sel) in
  promise_state 0 (run w [ButtonMouseDown; BuildDone 0 (inl (DictError 0))])
  = Rejected (DictError 0)
  /\ (annotateSelection w).2 = Normal tt
  /\ ~ (exists e, (annotateSelection w).2 = Throw e).
Proof.
  cbv zeta. split; [reflexivity |]. split; [reflexivity |].
  intros [e H]. discriminate H.
Qed.

(** * Further properties of the content script *)

(** ** The pure helpers *)

(** X1. What [katakanaToHiragana] returns has no character of
    U+30A1..U+30F6 left. *)
Theorem katakanaToHiragana_clears_range (s : jsstring) :
  Forall (fun c => is_convertible_katakana c = false) (katakanaToHiragana s).
Proof.
  rewrite katakanaToHiragana_map.
  induction s as [|c s IH]; cbn [map]; constructor; [| exact IH].
  unfold kana_char. destruct (is_convertible_katakana c) eqn:E; [| exact E].
  apply is_convertible_katakana_spec in E.
  apply not_true_is_false. rewrite is_convertible_katakana_spec. lia.
Qed.

Lemma regex_test_app (cls : CharClass) (a b : jsstring) :
  regex_test cls (a ++ b) = regex_test cls a || regex_test cls b.
Proof.
  unfold regex_test. induction a as [|c a IH]; [reflexivity |].
  cbn [app existsb]. by rewrite IH, orb_assoc.
Qed.

(** X2. A concatenation of strings contains kanji exactly when one of the
    strings does; so a text cut into tokens contains kanji exactly when one
    of the surface forms does. *)
Theorem containsKanji_concat (parts : list jsstring) :
  containsKanji (concat parts) = existsb containsKanji parts.
Proof.
  induction parts as [|a parts IH]; [reflexivity |].
  cbn [concat existsb]. unfold containsKanji at 1.
  rewrite regex_test_app. fold (containsKanji a) (containsKanji (concat parts)).
  by rewrite IH.
Qed.

Lemma escape_text_app (a b : jsstring) :
  escape_text (a ++ b) = escape_text a ++ escape_text b.
Proof.
  induction a as [|c a IH]; [reflexivity |].
  cbn [app escape_text]. by rewrite IH, app_assoc.
Qed.

Lemma escapeHTML_pieces (a b : jsstring) :
  escapeHTML (a ++ b) = escapeHTML a ++ escapeHTML b.
Proof. rewrite !escapeHTML_escape_text. apply escape_text_app. Qed.

(** X3. [escapeHTML] distributes over concatenation: escaping a text as a
    whole or piece by piece gives the same markup. *)
Theorem escapeHTML_app (a b : jsstring) :
  escapeHTML (a ++ b) = escapeHTML a ++ escapeHTML b.
Proof. apply escapeHTML_pieces. Qed.

(** X4. [escapeHTML] is injective: two different texts never get the same
    markup. *)
Theorem escapeHTML_inj (a b : jsstring) :
  escapeHTML a = escapeHTML b -> a = b.
Proof.
  rewrite !escapeHTML_escape_text. intros H.
  rewrite <- (escape_text_decode a), <- (escape_text_decode b). by rewrite H.
Qed.

Lemma escapeHTML_inj_witness :
  escapeHTML (lit "a<b") = escapeHTML (lit "a<b") /\ lit "a<b" = lit "a<b".
Proof.
  split; [reflexivity |]. exact (escapeHTML_inj _ _ eq_refl).
Defined.

Lemma escape_text_length (s : jsstring) :
  (length s <= length (escape_text s))%nat.
Proof.
  induction s as [|c s IH]; [done |].
  cbn [escape_text]. rewrite length_app. cbn [length].
  destruct (escape_unit_cases c)
    as [[-> ->] | [[-> ->] | [[-> ->] | [[-> ->] | (? & ? & ? & ? & ->)]]]];
    cbn [length]; lia.
Qed.

(** X5. [escapeHTML] returns its argument unchanged exactly when the
    argument has none of [&], [<], [>] and U+00A0; it never shortens a
    text. *)
Theorem escapeHTML_fixed (s : jsstring) :
  (escapeHTML s = s <->
     Forall (fun c => c <> 38 /\ c <> 160 /\ c <> 60 /\ c <> 62) s)
  /\ (length s <= length (escapeHTML s))%nat.
Proof.
  rewrite escapeHTML_escape_text. split; [| apply escape_text_length].
  induction s as [|c s IH]; [split; [constructor | reflexivity] |].
  cbn [escape_text]. rewrite Forall_cons.
  pose proof (escape_text_length s) as Hlen.
  destruct (escape_unit_cases c)
    as [[-> ->] | [[-> ->] | [[-> ->] | [[-> ->] | (n1 & n2 & n3 & n4 & ->)]]]].
  1-4: split; [intros Heq; apply (f_equal length) in Heq; cbn in Heq; lia
              | intros [(? & ? & ? & ?) _]; done].
  cbn [app]. split.
  - intros Heq. injection Heq as Heq. split; [done | by apply IH].
  - intros [_ Hall]. f_equal. by apply IH.
Qed.

(** ** buildRubyHTML on parts and on text without annotation *)

(** X6. The markup of a token sequence cut in two is the markup of the first
    part followed by the markup of the second: no token's segment depends on
    its neighbours. *)
Theorem buildRubyHTML_app (a b : list Token) :
  exists x y,
    buildRubyHTML a = Normal x /\ buildRubyHTML b = Normal y
    /\ buildRubyHTML (a ++ b) = Normal (x ++ y).
Proof.
  exists (spec_annotate a), (spec_annotate b).
  rewrite !buildRubyHTML_segments. repeat split.
  unfold spec_annotate. by rewrite map_app, concat_app.
Qed.

Lemma ruby_step_plain (t : Token) (html : jsstring) :
  containsKanji (surface_form t) && truthy (reading t) = false ->
  ruby_step t html = html ++ escapeHTML (surface_form t).
Proof. unfold ruby_step. by intros ->. Qed.

Lemma buildRubyHTML_loop_plain (tokens : list Token) (n i : nat) (html : jsstring) :
  Forall (fun t => containsKanji (surface_form t) && truthy (reading t) = false)
         tokens ->
  (i + n = length tokens)%nat ->
  buildRubyHTML_loop tokens n i html =
    Normal (html ++ escapeHTML (concat (map surface_form (drop i tokens)))).
Proof.
  intros Hall. revert i html. induction n as [|n IH]; intros i html Hlen.
  - cbn [buildRubyHTML_loop]. rewrite drop_ge by lia.
    cbn [map concat]. by rewrite app_nil_r.
  - cbn [buildRubyHTML_loop]. unfold token_at.
    destruct (tokens !! i) as [t|] eqn:Ht.
    + cbn [cbind]. rewrite IH by lia.
      rewrite (drop_S _ _ _ Ht). cbn [map concat].
      rewrite ruby_step_plain, escapeHTML_pieces, <- app_assoc; [done |].
      rewrite Forall_forall in Hall. apply Hall.
      by eapply list_elem_of_lookup_2.
    + apply lookup_ge_None in Ht. lia.
Qed.

(** X7. When no token both contains kanji and has a non-empty reading, the
    output is the escaped concatenation of the surface forms, that is, the
    escaped source text, with no ruby element. *)
Theorem buildRubyHTML_plain (tokens : list Token) :
  Forall (fun t => containsKanji (surface_form t) && truthy (reading t) = false)
         tokens ->
  buildRubyHTML tokens = Normal (escapeHTML (concat (map surface_form tokens))).
Proof.
  intros Hall. unfold buildRubyHTML.
  by rewrite buildRubyHTML_loop_plain.
Qed.

Lemma buildRubyHTML_plain_witness :
  buildRubyHTML [mkToken (lit "a&b") None; mkToken [0x306F] (Some [0x30CF])]
  = Normal (escapeHTML (lit "a&b" ++ [0x306F])).
Proof.
  apply (buildRubyHTML_plain
           [mkToken (lit "a&b") None; mkToken [0x306F] (Some [0x30CF])]).
  repeat constructor.
Defined.


(** ** initTokenizer over sequences of events *)

Lemma wf_ready (w : World) (tk : Tokenizer) :
  wf w -> tokenizer (script w) = Some tk ->
  tokenizerLoading (script w) = false /\ builds (runtime w) = []
  /\ reactions (runtime w) = [].
Proof.
  intros Hw Htk.
  assert (Hl : tokenizerLoading (script w) = false).
  { destruct Hw as [[_ H2 _ _] _].
    destruct (tokenizerLoading (script w)); [| done].
    specialize (H2 eq_refl). congruence. }
  split; [done |]. by apply wf_idle.
Qed.

Lemma step_ready (w : World) (ev : Event) (tk : Tokenizer) :
  wf w -> tokenizer (script w) = Some tk ->
  tokenizer (script (step w ev)) = Some tk
  /\ buildCalls (runtime (step w ev)) = buildCalls (runtime w).
Proof.
  intros Hw Htk. destruct (wf_ready w tk Hw Htk) as (Hl & Hb & _).
  destruct (run_reactions_frame (handle ev w)) as (Ft & _ & _ & _ & Fc).
  fold (step w ev) in Ft, Fc. rewrite Ft, Fc.
  destruct (handle_init w ev)
    as [(Ht & _ & _ & Hc) | [(G & _) | (p & r & _ & Hin & _)]].
  - by rewrite Ht, Hc.
  - rewrite Htk in G. done.
  - rewrite Hb in Hin. inversion Hin.
Qed.

Lemma step_buildCalls (w : World) (ev : Event) (f : nat) :
  wf w ->
  (buildCalls (runtime w) <=
     f + (if tokenizerLoading (script w) || is_set (tokenizer (script w))
          then 1 else 0))%nat ->
  (buildCalls (runtime (step w ev)) <=
     failed_loads [ev] + f
     + (if tokenizerLoading (script (step w ev))
           || is_set (tokenizer (script (step w ev)))
        then 1 else 0))%nat.
Proof.
  intros Hw Hle.
  destruct (run_reactions_frame (handle ev w)) as (Ft & Fl & _ & _ & Fc).
  fold (step w ev) in Ft, Fl, Fc. rewrite Ft, Fl, Fc.
  destruct (handle_init w ev)
    as [(Ht & Hl & _ & Hc) | [(G & Ht & Hl & Hc) | (p & r & -> & Hin & Hh)]].
  - rewrite Ht, Hl, Hc. lia.
  - rewrite Ht, Hl. cbn [orb].
    rewrite orb_comm in G. rewrite G in Hle. lia.
  - destruct Hw as [[H1 H2 _ _] _].
    destruct H1 as [H1 | (p0 & _ & El & _)]; [rewrite H1 in Hin; inversion Hin |].
    rewrite El in Hle. cbn [orb] in Hle. rewrite Hh.
    unfold build_callback, finish_build, settle.
    destruct r as [err | built]; cbn;
      destruct (promises (runtime w) !! p) as [[| |]|]; cbn;
      rewrite ?(H2 El); cbn; lia.
Qed.

(** ** annotateSelection, the paths that reach the tokenizer *)

(** The button pressed while a tokenizer is set: the promise is fulfilled at
    once and the reaction runs within the same step. *)
Lemma press_ready (w : World) (tk : Tokenizer) (sel : Selection) (range : nat)
    (c : Z) (text : jsstring) :
  wf w -> tokenizer (script w) = Some tk ->
  selection (page w) = Some sel -> ranges sel !! 0%nat = Some range ->
  trim (selectionText sel) = c :: text ->
  exists fb,
    step w ButtonMouseDown =
      run_reaction (AnnotateReaction range (c :: text)) (Fulfilled (Some tk))
        (mkWorld (mkScript (Some tk) false (enabled (script w)) fb)
           (mkRuntime (promises (runtime w) ++ [Fulfilled (Some tk)]) [] []
                      (buildCalls (runtime w)))
           (page w) (platform w)).
Proof.
  intros Hw Htk Hsel Hrange Htr.
  destruct (wf_ready w tk Hw Htk) as (Hl & Hb & Hre).
  apply lookup_head_cons in Hrange as [rest Hrs].
  destruct w as [[tk0 ld en fb] [ps rs bs bc] pg pf].
  cbn in Htk, Hl, Hb, Hre, Hsel. subst tk0 ld bs rs.
  unfold step, handle, annotateSelection. cbn [page]. rewrite Hsel, Hrs, Htr.
  cbn [script floatingBtn].
  exists (match fb with
          | Some b => Some (set_textContent HOURGLASS
                              (classList_add "yomimark-loading" b))
          | None => None
          end).
  destruct fb as [b |];
    (rewrite run_reactions_ready
       with (p := length ps) (k := AnnotateReaction range (c :: text));
     [ unfold promise_state; cbn; rewrite lookup_snoc_new; reflexivity
     | reflexivity
     | unfold promise_state; cbn; by rewrite lookup_snoc_new ]).
Qed.

(** X8. The button pressed on a selection while a tokenizer is set, and
    [tokenize] returns tokens for the trimmed selected text: the range is
    replaced by one wrapper of class [yomimark-annotated] holding the markup
    of [buildRubyHTML] for these tokens; the selection is cleared, the
    floating button removed, nothing is written to the console and no load
    is started. *)
Theorem annotateSelection_ready (w : World) (tk : Tokenizer) (sel : Selection)
    (range : nat) (tokens : list Token) :
  wf w -> tokenizer (script w) = Some tk ->
  selection (page w) = Some sel -> ranges sel !! 0%nat = Some range ->
  trim (selectionText sel) <> [] ->
  tokenize tk (trim (selectionText sel)) = Normal tokens ->
  exists html,
    buildRubyHTML tokens = Normal html
    /\ insertions (page (step w ButtonMouseDown))
       = insertions (page w) ++ [(range, mkWrapper "yomimark-annotated" html)]
    /\ selection (page (step w ButtonMouseDown)) = Some (mkSelection [] [])
    /\ floatingBtn (script (step w ButtonMouseDown)) = None
    /\ console (page (step w ButtonMouseDown)) = console (page w)
    /\ buildCalls (runtime (step w ButtonMouseDown)) = buildCalls (runtime w).
Proof.
  intros Hw Htk Hsel Hrange Hne Htok.
  destruct (trim (selectionText sel)) as [| c text] eqn:Htr; [done |].
  destruct (press_ready w tk sel range c text Hw Htk Hsel Hrange Htr)
    as [fb ->].
  exists (spec_annotate tokens). split; [apply buildRubyHTML_segments |].
  cbn. rewrite Htok. cbn. rewrite buildRubyHTML_segments. cbn.
  by rewrite Hsel.
Qed.

Lemma annotateSelection_ready_witness :
  let tk := mkTokenizer (fun s => Normal [mkToken s (Some [0x30AB; 0x30F3; 0x30B8])]) in
  let sel := mkSelection [7%nat] [0x20; 0x6F22; 0x5B57; 0x20] in
  let w := run (initial_world (Some sel)) [PreloadTimer; BuildDone 0 (inr tk)] in
  wf w /\ trim (selectionText sel) <> []
  /\ exists html,
       buildRubyHTML [mkToken [0x6F22; 0x5B57] (Some [0x30AB; 0x30F3; 0x30B8])]
       = Normal html
       /\ insertions (page (step w ButtonMouseDown))
          = [(7%nat, mkWrapper "yomimark-annotated" html)].
Proof.
  cbv zeta. split; [apply reachable_wf |]. split; [discriminate |].
  destruct (annotateSelection_ready
    (run (initial_world (Some (mkSelection [7%nat] [0x20; 0x6F22; 0x5B57; 0x20])))
       [PreloadTimer;
        BuildDone 0 (inr (mkTokenizer
          (fun s => Normal [mkToken s (Some [0x30AB; 0x30F3; 0x30B8])])))])
    (mkTokenizer (fun s => Normal [mkToken s (Some [0x30AB; 0x30F3; 0x30B8])]))
    (mkSelection [7%nat] [0x20; 0x6F22; 0x5B57; 0x20]) 7%nat
    [mkToken [0x6F22; 0x5B57] (Some [0x30AB; 0x30F3; 0x30B8])]
    (reachable_wf _ _) eq_refl eq_refl eq_refl ltac:(discriminate) eq_refl)
    as (html & H1 & H2 & _).
  exists html. split; [exact H1 | exact H2].
Defined.

(** X9. The same press when [tokenize] throws: nothing is inserted and the
    selection is kept; the error is written to the console as an annotation
    failure and the floating button is removed. *)
Theorem annotateSelection_tokenize_throws (w : World) (tk : Tokenizer)
    (sel : Selection) (range : nat) (e : exn) :
  wf w -> tokenizer (script w) = Some tk ->
  selection (page w) = Some sel -> ranges sel !! 0%nat = Some range ->
  trim (selectionText sel) <> [] ->
  tokenize tk (trim (selectionText sel)) = Throw e ->
  insertions (page (step w ButtonMouseDown)) = insertions (page w)
  /\ selection (page (step w ButtonMouseDown)) = Some sel
  /\ floatingBtn (script (step w ButtonMouseDown)) = None
  /\ console (page (step w ButtonMouseDown))
     = console (page w) ++ [LogError "[YomiMark] Annotation failed:" e].
Proof.
  intros Hw Htk Hsel Hrange Hne Htok.
  destruct (trim (selectionText sel)) as [| c text] eqn:Htr; [done |].
  destruct (press_ready w tk sel range c text Hw Htk Hsel Hrange Htr)
    as [fb ->].
  cbn. rewrite Htok. cbn. by rewrite Hsel.
Qed.

Lemma annotateSelection_tokenize_throws_witness :
  let tk := mkTokenizer (fun _ => Throw (TypeError "bad input")) in
  let sel := mkSelection [7%nat] [0x6F22; 0x5B57] in
  let w := run (initial_world (Some sel)) [PreloadTimer; BuildDone 0 (inr tk)] in
  wf w /\ trim (selectionText sel) <> []
  /\ insertions (page (step w ButtonMouseDown)) = [].
Proof.
  cbv zeta. split; [apply reachable_wf |]. split; [discriminate |].
  exact (proj1 (annotateSelection_tokenize_throws
    (run (initial_world (Some (mkSelection [7%nat] [0x6F22; 0x5B57])))
       [PreloadTimer;
        BuildDone 0 (inr (mkTokenizer (fun _ => Throw (TypeError "bad input"))))])
    (mkTokenizer (fun _ => Throw (TypeError "bad input")))
    (mkSelection [7%nat] [0x6F22; 0x5B57]) 7%nat (TypeError "bad input")
    (reachable_wf _ _) eq_refl eq_refl eq_refl ltac:(discriminate) eq_refl)).
Defined.


(** A load in flight, with one reaction of [annotateSelection] waiting on
    it, succeeds: the tokenizer is set and the reaction runs with it. *)
Lemma waiting_press_load_succeeds (tk0 : option Tokenizer) (ld en : bool)
    (fb : option Button) (ps : list PromiseState)
    (range : nat) (text : jsstring) (bc : nat) (pg : Page) (pf : Platform)
    (tk : Tokenizer) :
  step (mkWorld (mkScript tk0 ld en fb)
          (mkRuntime (ps ++ [Pending])
             [(length ps, AnnotateReaction range text)] [length ps] bc)
          pg pf)
       (BuildDone (length ps) (inr tk))
  = run_reaction (AnnotateReaction range text) (Fulfilled (Some tk))
      (mkWorld (mkScript (Some tk) false en fb)
         (mkRuntime (<[length ps := Fulfilled (Some tk)]> (ps ++ [Pending]))
                    [] [] bc)
         (console_write (LogInfo "[YomiMark] Tokenizer ready") pg)
         pf).
Proof.
  unfold step, handle. cbn [runtime builds].
  rewrite bool_decide_eq_true_2 by left.
  unfold build_callback, finish_build, settle. cbn.
  rewrite lookup_snoc_new.
  unfold with_runtime, with_page, with_script, set_tokenizerLoading,
    set_tokenizer.
  cbn [script runtime page platform promises reactions builds buildCalls
       tokenizer tokenizerLoading enabled floatingBtn].
  rewrite filter_cons, filter_nil, decide_False by (intros H; by apply H).
  rewrite run_reactions_ready
    with (p := length ps) (k := AnnotateReaction range text);
    [| reflexivity
     | unfold promise_state; cbn;
       rewrite list_lookup_insert_eq by (rewrite length_app; cbn; lia);
       reflexivity].
  unfold promise_state. cbn.
  rewrite list_lookup_insert_eq by (rewrite length_app; cbn; lia).
  reflexivity.
Qed.

(** X10. The button pressed on a selection while there is no tokenizer and
    no load in flight, the platform calls returning; the load this starts
    succeeds, and [tokenize] of the tokenizer built returns tokens for the
    trimmed selected text: the tokenizer is set, and the range is replaced
    by one wrapper holding the markup of [buildRubyHTML] for these tokens;
    the selection is cleared and the floating button removed. *)
Theorem annotateSelection_cold_start (w : World) (tk : Tokenizer)
    (sel : Selection) (range : nat) (tokens : list Token) :
  wf w -> tokenizer (script w) = None -> tokenizerLoading (script w) = false ->
  platform w = healthy ->
  selection (page w) = Some sel -> ranges sel !! 0%nat = Some range ->
  trim (selectionText sel) <> [] ->
  tokenize tk (trim (selectionText sel)) = Normal tokens ->
  exists html,
    buildRubyHTML tokens = Normal html
    /\ insertions (page (run w [ButtonMouseDown;
                               BuildDone (length (promises (runtime w))) (inr tk)]))
       = insertions (page w) ++ [(range, mkWrapper "yomimark-annotated" html)]
    /\ tokenizer (script (run w [ButtonMouseDown;
                               BuildDone (length (promises (runtime w))) (inr tk)]))
       = Some tk
    /\ selection (page (run w [ButtonMouseDown;
                               BuildDone (length (promises (runtime w))) (inr tk)]))
       = Some (mkSelection [] [])
    /\ floatingBtn (script (run w [ButtonMouseDown;
                               BuildDone (length (promises (runtime w))) (inr tk)]))
       = None
    /\ console (page (run w [ButtonMouseDown;
                               BuildDone (length (promises (runtime w))) (inr tk)]))
       = console (page w) ++ [LogInfo "[YomiMark] Tokenizer ready"].
Proof.
  intros Hw Htk Hl Hpf Hsel Hrange Hne Htok.
  destruct (trim (selectionText sel)) as [| c text] eqn:Htr; [done |].
  cbn [run foldl].
  destruct (press_idle w sel range c text Hw Htk Hl Hpf Hsel Hrange Htr)
    as [_ ->].
  exists (spec_annotate tokens). split; [apply buildRubyHTML_segments |].
  rewrite waiting_press_load_succeeds.
  cbn. rewrite Htok. cbn. rewrite buildRubyHTML_segments. cbn.
  by rewrite Hsel.
Qed.

Lemma annotateSelection_cold_start_witness :
  let tk := mkTokenizer (fun s => Normal [mkToken s (Some [0x30AB; 0x30F3; 0x30B8])]) in
  let sel := mkSelection [7%nat] [0x6F22; 0x5B57] in
  let w := initial_world (Some sel) in
  wf w /\ trim (selectionText sel) <> []
  /\ exists html,
       buildRubyHTML [mkToken [0x6F22; 0x5B57] (Some [0x30AB; 0x30F3; 0x30B8])]
       = Normal html
       /\ insertions (page (run w [ButtonMouseDown; BuildDone 0 (inr tk)]))
          = [(7%nat, mkWrapper "yomimark-annotated" html)].
Proof.
  cbv zeta. split; [apply initial_world_wf |]. split; [discriminate |].
  destruct (annotateSelection_cold_start
    (initial_world (Some (mkSelection [7%nat] [0x6F22; 0x5B57])))
    (mkTokenizer (fun s => Normal [mkToken s (Some [0x30AB; 0x30F3; 0x30B8])]))
    (mkSelection [7%nat] [0x6F22; 0x5B57]) 7%nat
    [mkToken [0x6F22; 0x5B57] (Some [0x30AB; 0x30F3; 0x30B8])]
    (initial_world_wf _) eq_refl eq_refl eq_refl eq_refl eq_refl
    ltac:(discriminate) eq_refl)
    as (html & H1 & H2 & _).
  exists html. split; [exact H1 | exact H2].
Defined.
(** ** annotateSelection, the early returns *)

Lemma trimStart_nil (s : jsstring) :
  trimStart s = [] <-> Forall (fun c => is_js_space c = true) s.
Proof.
  induction s as [|c s IH]; [split; [constructor | done] |].
  cbn [trimStart]. rewrite Forall_cons.
  destruct (is_js_space c); [rewrite IH; tauto |].
  split; [done | intros [? _]; done].
Qed.

Lemma trimStart_head (s : jsstring) (c : Z) (r : jsstring) :
  trimStart s = c :: r -> is_js_space c = false.
Proof.
  induction s as [|d s IH]; [done |].
  cbn [trimStart]. destruct (is_js_space d) eqn:E; [exact IH |].
  by intros [= -> _].
Qed.

Lemma trim_nil (s : jsstring) :
  trim s = [] <-> Forall (fun c => is_js_space c = true) s.
Proof.
  unfold trim. split.
  - intros H. apply (f_equal (@rev Z)) in H. rewrite rev_involutive in H.
    cbn in H. apply trimStart_nil in H.
    apply Forall_rev in H. rewrite rev_involutive in H.
    destruct (trimStart s) as [|c r] eqn:E; [by apply trimStart_nil |].
    apply trimStart_head in E. apply Forall_cons in H as [H _]. congruence.
  - intros H. apply trimStart_nil in H. by rewrite H.
Qed.

(** X11. [annotateSelection] leaves the state as it is exactly when there is
    no selection object, the selection has no range, or the selected text
    consists of white space only; in every other case it has called
    [initTokenizer] and hung its handlers on the promise. *)
(** X11. [annotateSelection] returns [undefined] and leaves the state as it
    is when there is no selection object, the selection has no range, or
    the selected text consists of white space only, and only then is the
    state unchanged.  In every other case it shows the loading state on the
    button and calls [initTokenizer]: the state is the one that call left,
    with, when the call returned a promise, the handlers for the first
    range and the trimmed text added on that promise; when the call threw,
    the exception leaves [annotateSelection] and no handler is added. *)
Theorem annotateSelection_noop (w : World) :
  ((annotateSelection w).1 = w <->
   match selection (page w) with
   | None => True
   | Some sel =>
       ranges sel = []
       \/ Forall (fun c => is_js_space c = true) (selectionText sel)
   end)
  /\ match selection (page w) with
     | None => annotateSelection w = (w, Normal tt)
     | Some sel =>
         match ranges sel, trim (selectionText sel) with
         | [], _ => annotateSelection w = (w, Normal tt)
         | _ :: _, [] => annotateSelection w = (w, Normal tt)
         | range :: _, c :: text =>
             script (annotateSelection w).1
             = script (initTokenizer (loading_shown w)).1
             /\ page (annotateSelection w).1 = page w
             /\ promises (runtime (annotateSelection w).1)
                = promises (runtime (initTokenizer (loading_shown w)).1)
             /\ builds (runtime (annotateSelection w).1)
                = builds (runtime (initTokenizer (loading_shown w)).1)
             /\ buildCalls (runtime (annotateSelection w).1)
                = buildCalls (runtime (initTokenizer (loading_shown w)).1)
             /\ match (initTokenizer (loading_shown w)).2 with
                | Normal p =>
                    reactions (runtime (annotateSelection w).1)
                    = reactions (runtime w)
                      ++ [(p, AnnotateReaction range (c :: text))]
                    /\ (annotateSelection w).2 = Normal tt
                | Throw e =>
                    reactions (runtime (annotateSelection w).1)
                    = reactions (runtime w)
                    /\ (annotateSelection w).2 = Throw e
                end
         end
     end.
Proof.
  split.
  - unfold annotateSelection.
    destruct (selection (page w)) as [sel |]; [| done].
    destruct (ranges sel) as [| range rest]; [split; [by left | done] |].
    rewrite <- trim_nil.
    destruct (trim (selectionText sel)) as [| c text];
      [split; [by right | done] |].
    split; [| intros [? | ?]; done].
    intros H. exfalso. fold (loading_shown w) in H.
    destruct (initTokenizer_cases (loading_shown w))
      as [(G & E) | [(G & e & _ & E) | [(G & _ & e & _ & E) | (G & _ & _ & E)]]];
      rewrite E in H; cbn [fst] in H.
    + apply (f_equal (fun x => length (promises (runtime x)))) in H.
      revert H. unfold loading_shown.
      destruct (floatingBtn (script w)); cbn; rewrite length_app; cbn; lia.
    + apply (f_equal (fun x => tokenizerLoading (script x))) in H.
      apply orb_false_iff in G as [_ G]. revert H G. unfold loading_shown.
      destruct (floatingBtn (script w)); cbn; congruence.
    + apply (f_equal (fun x => length (promises (runtime x)))) in H.
      revert H. unfold loading_shown.
      destruct (floatingBtn (script w)); cbn; rewrite length_app; cbn; lia.
    + apply (f_equal (fun x => length (promises (runtime x)))) in H.
      revert H. unfold loading_shown.
      destruct (floatingBtn (script w)); cbn; rewrite length_app; cbn; lia.
  - unfold annotateSelection.
    destruct (selection (page w)) as [sel |] eqn:Hsel; [| done].
    destruct (ranges sel) as [| range rest]; [done |].
    destruct (trim (selectionText sel)) as [| c text]; [done |].
    fold (loading_shown w).
    pose proof (initTokenizer_page (loading_shown w)) as Hp.
    pose proof (initTokenizer_reactions (loading_shown w)) as Hr.
    assert (Hpg : page (loading_shown w) = page w)
      by (unfold loading_shown; by destruct (floatingBtn (script w))).
    assert (Hrs : reactions (runtime (loading_shown w)) = reactions (runtime w))
      by (unfold loading_shown; by destruct (floatingBtn (script w))).
    destruct (initTokenizer (loading_shown w)) as [w1 [p | e]]; cbn in *;
      rewrite Hp, Hpg, Hr, Hrs; done.
Qed.

(** ** The handlers of the page beside the tokenizer *)

Lemma page_step_frame (w : World) (ev : PageEvent) :
  (exists core, ev = Core core)
  \/ (runtime (page_step w ev) = runtime w
      /\ page (page_step w ev) = page w
      /\ tokenizer (script (page_step w ev)) = tokenizer (script w)
      /\ tokenizerLoading (script (page_step w ev)) = tokenizerLoading (script w)).
Proof.
  destruct ev as [core | | t | | m | v]; [left; by eexists | right ..];
    cbn [page_step].
  - unfold selectionCheck.
    destruct (_ && _); [| done].
    destruct (selection (page w)) as [sel |]; [| done].
    by destruct (ranges sel).
  - destruct t as [| | classes]; cbn; try done. by destruct (negb _).
  - unfold animationFrame. by destruct (floatingBtn (script w)).
  - destruct m as [state | |]; cbn; try done.
    unfold setEnabled. cbn. by destruct (negb state).
  - by destruct v as [[|] |].
Qed.

(** X12. The selection check, the mouse-down handler, the animation-frame
    callback, the message listener and the storage callback touch nothing
    but the [enabled] flag and the floating button: the tokenizer, the
    loading flag, the promises and loads, and the page's selection,
    insertions and console are as before. *)
Theorem page_handlers_frame (w : World) (ev : PageEvent) :
  match ev with
  | Core _ => True
  | _ =>
      runtime (page_step w ev) = runtime w
      /\ page (page_step w ev) = page w
      /\ tokenizer (script (page_step w ev)) = tokenizer (script w)
      /\ tokenizerLoading (script (page_step w ev)) = tokenizerLoading (script w)
  end.
Proof.
  destruct (page_step_frame w ev) as [[core ->] | H]; [done |].
  by destruct ev.
Qed.

Lemma page_step_wf (w : World) (ev : PageEvent) : wf w -> wf (page_step w ev).
Proof.
  intros Hw.
  destruct (page_step_frame w ev) as [[core ->] | (Hr & Hp & Ht & Hl)].
  - by apply step_wf.
  - destruct Hw as [Hs Hre]. split.
    + eapply wf_state_ext; [exact Ht | exact Hl | | | exact Hs]; by rewrite Hr.
    + by rewrite Hr.
Qed.

Lemma page_run_wf (evs : list PageEvent) (w : World) :
  wf w -> wf (page_run w evs).
Proof.
  revert w. induction evs as [|ev evs IH]; intros w Hw; [done |].
  cbn. apply IH. by apply page_step_wf.
Qed.

(** ** The tokenizer over all events of the page *)

Lemma page_run_core (evs : list Event) (w : World) :
  page_run w (map Core evs) = run w evs.
Proof.
  revert w. induction evs as [|ev evs IH]; intros w; [done |].
  cbn. apply IH.
Qed.

Lemma page_reachable_wf (sel : option Selection) (evs : list PageEvent) :
  wf (page_run (initial_world sel) evs).
Proof. apply page_run_wf, initial_world_wf. Qed.

Lemma page_step_ready (w : World) (ev : PageEvent) (tk : Tokenizer) :
  wf w -> tokenizer (script w) = Some tk ->
  tokenizer (script (page_step w ev)) = Some tk
  /\ buildCalls (runtime (page_step w ev)) = buildCalls (runtime w).
Proof.
  intros Hw Htk.
  destruct (page_step_frame w ev) as [[core ->] | (Hr & _ & Ht & _)].
  - by apply step_ready.
  - by rewrite Hr, Ht.
Qed.

(** X13. Once a tokenizer is set it stays: whatever events follow, the
    variable holds the same tokenizer, [build] is not called again and no
    load is in flight. *)
Theorem tokenizer_write_once (w : World) (tk : Tokenizer) (evs : list PageEvent) :
  wf w -> tokenizer (script w) = Some tk ->
  tokenizer (script (page_run w evs)) = Some tk
  /\ buildCalls (runtime (page_run w evs)) = buildCalls (runtime w)
  /\ tokenizerLoading (script (page_run w evs)) = false
  /\ builds (runtime (page_run w evs)) = [].
Proof.
  revert w. induction evs as [|ev evs IH]; intros w Hw Htk.
  - destruct (wf_ready w tk Hw Htk) as (Hl & Hb & _). done.
  - destruct (page_step_ready w ev tk Hw Htk) as [Ht Hc].
    cbn [page_run foldl]. fold (page_run (page_step w ev) evs).
    destruct (IH (page_step w ev) (page_step_wf w ev Hw) Ht) as (H1 & H2 & H3 & H4).
    by rewrite H1, H2, H3, H4, Hc.
Qed.

Lemma tokenizer_write_once_witness :
  let tk := mkTokenizer (fun _ => Normal []) in
  let w := run (initial_world None) [PreloadTimer; BuildDone 0 (inr tk)] in
  wf w /\ tokenizer (script w) = Some tk
  /\ buildCalls (runtime (page_run w [Core PreloadTimer; SelectionTimer;
                                      Core ButtonMouseDown])) = 1%nat.
Proof.
  cbv zeta. split; [apply reachable_wf |]. split; [reflexivity |].
  exact (proj1 (proj2 (tokenizer_write_once
    (run (initial_world None)
         [PreloadTimer; BuildDone 0 (inr (mkTokenizer (fun _ => Normal [])))])
    (mkTokenizer (fun _ => Normal []))
    [Core PreloadTimer; SelectionTimer; Core ButtonMouseDown]
    (reachable_wf None _) eq_refl))).
Defined.

(** X14. In every state the script can reach, at most one dictionary load
    is in flight; while one is in flight [tokenizerLoading] is set and the
    promise of the load is pending; and [tokenizerLoading] is never set
    together with a tokenizer.  (The flag can be set with no load in
    flight, after an exception in [initTokenizer].) *)
Theorem single_load_in_flight (sel : option Selection) (evs : list PageEvent) :
  let w := page_run (initial_world sel) evs in
  (length (builds (runtime w)) <= 1)%nat
  /\ (forall p, p ∈ builds (runtime w) ->
        tokenizerLoading (script w) = true
        /\ promises (runtime w) !! p = Some Pending)
  /\ (tokenizerLoading (script w) && is_set (tokenizer (script w)) = false).
Proof.
  cbv zeta. destruct (page_reachable_wf sel evs) as [[H1 H2 _ _] _].
  split; [| split].
  - destruct H1 as [-> | (p & -> & _)]; cbn; lia.
  - intros p Hin. destruct H1 as [H1 | (p0 & Hb & Hl & Hp)].
    + rewrite H1 in Hin. inversion Hin.
    + rewrite Hb in Hin. apply list_elem_of_singleton in Hin as ->. done.
  - destruct (tokenizerLoading (script (page_run (initial_world sel) evs)));
      [| done].
    by rewrite (H2 eq_refl).
Qed.

Lemma page_step_buildCalls (w : World) (ev : PageEvent) (f : nat) :
  wf w ->
  (buildCalls (runtime w) <=
     f + (if tokenizerLoading (script w) || is_set (tokenizer (script w))
          then 1 else 0))%nat ->
  (buildCalls (runtime (page_step w ev)) <=
     failed_loads (core_events [ev]) + f
     + (if tokenizerLoading (script (page_step w ev))
           || is_set (tokenizer (script (page_step w ev)))
        then 1 else 0))%nat.
Proof.
  intros Hw Hle.
  destruct (page_step_frame w ev) as [[core ->] | (Hr & _ & Ht & Hl)].
  - by apply step_buildCalls.
  - rewrite Hr, Ht, Hl. lia.
Qed.

(** X15. From the start of the script, [build] has been called at most once
    more than loads have failed: a load is started again only after one
    ended with an error. *)
Theorem buildCalls_bound (sel : option Selection) (evs : list PageEvent) :
  (buildCalls (runtime (page_run (initial_world sel) evs))
   <= 1 + failed_loads (core_events evs))%nat.
Proof.
  assert (H : forall evs w f, wf w ->
    (buildCalls (runtime w) <=
       f + (if tokenizerLoading (script w) || is_set (tokenizer (script w))
            then 1 else 0))%nat ->
    (buildCalls (runtime (page_run w evs))
     <= 1 + (failed_loads (core_events evs) + f))%nat).
  { clear. induction evs as [|ev evs' IH]; intros w f Hw Hle.
    - cbn. destruct (_ || _); lia.
    - cbn [page_run foldl]. fold (page_run (page_step w ev) evs').
      pose proof (page_step_buildCalls w ev f Hw Hle) as Hs.
      specialize (IH (page_step w ev) (failed_loads (core_events [ev]) + f)%nat
                     (page_step_wf w ev Hw) Hs).
      assert (failed_loads (core_events (ev :: evs'))
              = (failed_loads (core_events [ev])
                 + failed_loads (core_events evs'))%nat)
        by (by destruct ev as [[| | p [e | b] | pf] | | | | |]).
      lia. }
  specialize (H evs (initial_world sel) 0%nat (initial_world_wf sel)).
  cbn in H. specialize (H ltac:(lia)). lia.
Qed.

(** ** The floating button *)

Lemma space_not_kanji (c : Z) :
  is_js_space c = true -> class_matches KANJI_REGEX c = false.
Proof.
  intros Hs. apply not_true_is_false. rewrite is_kanji_class.
  unfold is_kanji. unfold is_js_space in Hs.
  rewrite !orb_true_iff, andb_true_iff, !Z.eqb_eq, !Z.leb_le in Hs. lia.
Qed.

Lemma containsKanji_trimStart (s : jsstring) :
  containsKanji (trimStart s) = containsKanji s.
Proof.
  induction s as [|c s IH]; [reflexivity |].
  cbn [trimStart]. destruct (is_js_space c) eqn:E; [| reflexivity].
  rewrite IH. unfold containsKanji, regex_test. cbn [existsb].
  by rewrite (space_not_kanji c E).
Qed.

Lemma containsKanji_rev (s : jsstring) :
  containsKanji (rev s) = containsKanji s.
Proof.
  unfold containsKanji. induction s as [|c s IH]; [reflexivity |].
  cbn [rev]. rewrite regex_test_app, IH. unfold regex_test. cbn [existsb].
  rewrite orb_false_r. apply orb_comm.
Qed.

Lemma containsKanji_trim (s : jsstring) :
  containsKanji (trim s) = containsKanji s.
Proof.
  unfold trim.
  by rewrite containsKanji_rev, containsKanji_trimStart, containsKanji_rev,
    containsKanji_trimStart.
Qed.

Lemma selectionCheck_cases (w : World) :
  selectionCheck w =
    match selection (page w) with
    | Some sel =>
        if containsKanji (selectionText sel) then
          match ranges sel with
          | _ :: _ => Returned (createFloatingBtn w)
          | [] => Uncaught "IndexSizeError"
          end
        else Returned (removeFloatingBtn w)
    | None => Returned (removeFloatingBtn w)
    end.
Proof.
  unfold selectionCheck.
  destruct (selection (page w)) as [sel |]; [| reflexivity].
  rewrite <- (containsKanji_trim (selectionText sel)).
  destruct (trim (selectionText sel)) as [| c text]; reflexivity.
Qed.

(** X16. When the selection check runs on a selection that has a range, it
    returns, and afterwards there is a floating button exactly when the
    selected text contains kanji (trimming makes no difference to that,
    and the test of the length is implied): then it is a new button of
    class [yomimark-float-btn] with the text U+8AAD, in the page; otherwise
    a button that was there is removed. *)
Theorem selectionCheck_button (w : World) (sel : Selection) :
  selection (page w) = Some sel -> ranges sel <> [] ->
  exists w',
    selectionCheck w = Returned w'
    /\ floatingBtn (script w')
       = (if containsKanji (selectionText sel)
          then Some (mkButton ["yomimark-float-btn"] YOMI true)
          else None)
    /\ enabled (script w') = enabled (script w).
Proof.
  intros Hsel Hr. rewrite selectionCheck_cases, Hsel.
  destruct (containsKanji (selectionText sel)).
  - destruct (ranges sel); [done |]. by eexists.
  - by eexists.
Qed.

Lemma selectionCheck_button_witness :
  let sel := mkSelection [7%nat] [0x20; 0x6F22; 0x5B57] in
  exists w',
    selectionCheck (initial_world (Some sel)) = Returned w'
    /\ floatingBtn (script w') = Some (mkButton ["yomimark-float-btn"] YOMI true).
Proof.
  cbv zeta.
  destruct (selectionCheck_button
    (initial_world (Some (mkSelection [7%nat] [0x20; 0x6F22; 0x5B57])))
    (mkSelection [7%nat] [0x20; 0x6F22; 0x5B57]) eq_refl ltac:(discriminate))
    as (w' & H1 & H2 & _).
  exists w'. split; [exact H1 | exact H2].
Defined.



Lemma classList_add_elem (cls x : string) (b : Button) :
  x ∈ classList (classList_add cls b) <-> x = cls \/ x ∈ classList b.
Proof.
  unfold classList_add. cbn. case_bool_decide as Hin.
  - split; [by right | intros [-> | H]; done].
  - rewrite elem_of_app, list_elem_of_singleton. tauto.
Qed.

Lemma classList_add_NoDup (cls : string) (b : Button) :
  NoDup (classList b) -> NoDup (classList (classList_add cls b)).
Proof.
  intros Hnd. unfold classList_add. cbn. case_bool_decide as Hin; [done |].
  apply NoDup_app. split; [done |]. split; [| apply NoDup_singleton].
  intros x Hx Hx'. apply list_elem_of_singleton in Hx'. by subst.
Qed.

Lemma button_ok_loading (b : Button) :
  button_ok b ->
  button_ok (set_textContent HOURGLASS (classList_add "yomimark-loading" b)).
Proof.
  intros (Ha & Hc & Hnd & _). unfold button_ok. cbn [attached textContent classList set_textContent].
  split; [done |].
  change (classList (set_textContent HOURGLASS (classList_add "yomimark-loading" b)))
    with (classList (classList_add "yomimark-loading" b)).
  split; [apply classList_add_elem; by right |].
  split; [by apply classList_add_NoDup |].
  right. split; [done |]. apply classList_add_elem. by left.
Qed.

Lemma button_ok_visible (b : Button) :
  button_ok b -> button_ok (classList_add "yomimark-float-btn--visible" b).
Proof.
  intros (Ha & Hc & Hnd & Ht). unfold button_ok.
  split; [done |].
  split; [apply classList_add_elem; by right |].
  split; [by apply classList_add_NoDup |].
  destruct Ht as [[Ht Hl] | [Ht Hl]]; [left | right]; (split; [done |]).
  - rewrite classList_add_elem. intros [H | H]; done.
  - apply classList_add_elem. by right.
Qed.

Lemma button_ok_fresh : button_ok (mkButton ["yomimark-float-btn"] YOMI true).
Proof.
  unfold button_ok. cbn. split; [done |]. split; [left |].
  split; [apply NoDup_singleton |]. left. split; [done |].
  intros H. apply list_elem_of_singleton in H. done.
Qed.

Lemma initTokenizer_floatingBtn (w : World) :
  floatingBtn (script (initTokenizer w).1) = floatingBtn (script w).
Proof.
  by destruct (initTokenizer_cases w)
    as [(G & ->) | [(G & e & _ & ->) | [(G & _ & e & _ & ->) | (G & _ & _ & ->)]]].
Qed.

Lemma run_reaction_floatingBtn (k : Reaction) (st : PromiseState) (w : World) :
  floatingBtn (script (run_reaction k st w)) = floatingBtn (script w)
  \/ floatingBtn (script (run_reaction k st w)) = None.
Proof.
  destruct k as [range text |]; [| by left].
  destruct st as [| [tk |] | e]; cbn; try (by left); try (by right).
  destruct (tokenize tk text) as [tokens | e]; cbn; [| by right].
  destruct (buildRubyHTML tokens); by right.
Qed.

Lemma step_floatingBtn_ok (w : World) (ev : Event) :
  floatingBtn_ok w -> floatingBtn_ok (step w ev).
Proof.
  intros Hok. unfold step.
  apply (run_reactions_keeps floatingBtn_ok).
  - intros q k w' Hw'. unfold floatingBtn_ok.
    destruct (run_reaction_floatingBtn k (promise_state q w') w') as [-> | ->];
      done.
  - change (floatingBtn_ok (handle ev w)).
    destruct ev as [| | p result | pf]; cbn [handle].
    + unfold annotateSelection.
      destruct (selection (page w)) as [sel |]; [| done].
      destruct (ranges sel) as [| range rest]; [done |].
      destruct (trim (selectionText sel)) as [| c text]; [done |].
      unfold floatingBtn_ok in *.
      destruct (floatingBtn (script w)) as [b |] eqn:Hb;
        match goal with
        | |- context [initTokenizer ?x] =>
            pose proof (initTokenizer_floatingBtn x) as Hf;
            destruct (initTokenizer x) as [w1 [p | e]]
        end; cbn in *; rewrite Hf;
        first [by apply button_ok_loading | by rewrite Hb].
    + destruct (enabled (script w)); [| done].
      unfold floatingBtn_ok in *.
      pose proof (initTokenizer_floatingBtn w) as Hf.
      destruct (initTokenizer w) as [w1 [p | e]]; cbn in *; by rewrite Hf.
    + case_bool_decide; [| done].
      unfold floatingBtn_ok, build_callback, finish_build, settle in *.
      destruct result; cbn;
        by destruct (promises (runtime w) !! p) as [[| |]|].
    + done.
Qed.

Lemma page_step_floatingBtn_ok (w : World) (ev : PageEvent) :
  floatingBtn_ok w -> floatingBtn_ok (page_step w ev).
Proof.
  intros Hok. destruct ev as [core | | t | | m | v]; cbn [page_step].
  - by apply step_floatingBtn_ok.
  - rewrite selectionCheck_cases.
    destruct (selection (page w)) as [sel |]; [| done].
    destruct (containsKanji (selectionText sel)); [| done].
    destruct (ranges sel); [done |]. apply button_ok_fresh.
  - destruct t as [| | classes]; cbn; try done. by destruct (negb _).
  - unfold animationFrame, floatingBtn_ok in *.
    destruct (floatingBtn (script w)) as [b |] eqn:Hb; [| by rewrite Hb].
    cbn. by apply button_ok_visible.
  - destruct m as [state | |]; cbn; try done.
    unfold setEnabled. cbn. by destruct state.
  - by destruct v as [[|] |].
Qed.

(** X18. Whatever events the script has handled, a floating button that is
    there is in the page, has the class [yomimark-float-btn] and no class
    twice, and shows either U+8AAD without the class [yomimark-loading] or
    the hourglass with it. *)
Theorem floatingBtn_invariant (sel : option Selection) (evs : list PageEvent) :
  floatingBtn_ok (page_run (initial_world sel) evs).
Proof.
  assert (H : forall evs w, floatingBtn_ok w -> floatingBtn_ok (page_run w evs)).
  { clear. induction evs as [|ev evs IH]; intros w Hw; [done |].
    cbn. apply IH. by apply page_step_floatingBtn_ok. }
  by apply H.
Qed.

(** ** The enabled flag *)

(** X19. A [SET_ENABLED] message is answered with success and sets the
    flag: a [GET_STATUS] sent next is answered with the new flag and with
    whether a tokenizer is set.  Disabling removes the floating button, and
    afterwards a mouse-up sets no selection check and the preload timer does
    nothing; enabling leaves the button as it is. *)
Theorem setEnabled_message (w : World) (state : bool) (t : EventTarget) :
  (onMessage (SET_ENABLED state) w).2 = Some ResponseSuccess
  /\ (onMessage GET_STATUS (onMessage (SET_ENABLED state) w).1).2
     = Some (ResponseStatus state (is_set (tokenizer (script w))))
  /\ floatingBtn (script (onMessage (SET_ENABLED state) w).1)
     = (if state then floatingBtn (script w) else None)
  /\ handleMouseUp t (onMessage (SET_ENABLED state) w).1
     = state && negb (target_has_class "yomimark-float-btn" t)
  /\ (if state then True
      else handle PreloadTimer (onMessage (SET_ENABLED state) w).1
           = (onMessage (SET_ENABLED state) w).1).
Proof.
  destruct state; cbn; unfold handleMouseUp; cbn; repeat split;
    by destruct (target_has_class _ t).
Qed.

(** A mouse-down on the floating button itself leaves the state to the
    button's own listener, and the mouse-up that follows sets no selection
    check; a mouse-down on any other element removes the button. *)
Lemma handleMouseDown_button (w : World) (classes : list string) :
  (if bool_decide ("yomimark-float-btn" ∈ classes)
   then handleMouseDown (ElementTarget classes) w = w
        /\ handleMouseUp (ElementTarget classes) w = false
   else floatingBtn (script (handleMouseDown (ElementTarget classes) w)) = None
        /\ handleMouseUp (ElementTarget classes) w = enabled (script w)).
Proof.
  unfold handleMouseDown, handleMouseUp, target_has_class.
  case_bool_decide; cbn; by destruct (enabled (script w)).
Qed.

(** ** Popup, background worker and content scripts together *)

(** X20. The popup and a content script that read the same stored value
    agree: the checkbox is checked exactly when the content script, which
    starts enabled, is enabled after its storage callback; both are on when
    nothing is stored, and after an installation. *)
Theorem stored_flag_agreement (v : option bool) (w : World) (pp : Popup)
    (br : Browser) :
  enabled (script w) = true ->
  enabled (script (storageLoaded v w)) = toggleChecked (popupLoaded v pp)
  /\ enabled (script (storageLoaded None w)) = true
  /\ toggleChecked (popupLoaded (storage (onInstalled "install" br)) pp) = true
  /\ enabled (script (storageLoaded (storage (onInstalled "install" br)) w)) = true.
Proof.
  intros He. destruct v as [[|] |]; cbn; by rewrite ?He.
Qed.

Lemma stored_flag_agreement_witness :
  enabled (script (initial_world None)) = true
  /\ enabled (script (storageLoaded (Some false) (initial_world None)))
     = toggleChecked (popupLoaded (Some false) (mkPopup true [] [])).
Proof.
  split; [reflexivity |].
  exact (proj1 (stored_flag_agreement (Some false) (initial_world None)
                  (mkPopup true [] []) (mkBrowser None [] None) eq_refl)).
Defined.

Lemma classes_add_elem (cls x : string) (l : list string) :
  x ∈ classes_add cls l <-> x = cls \/ x ∈ l.
Proof.
  unfold classes_add. case_bool_decide as Hin.
  - split; [by right | intros [-> | H]; done].
  - rewrite elem_of_app, list_elem_of_singleton. tauto.
Qed.

Lemma classes_remove_elem (cls x : string) (l : list string) :
  x ∈ classes_remove cls l <-> x <> cls /\ x ∈ l.
Proof. unfold classes_remove. by rewrite list_elem_of_filter. Qed.

(** X21. After [updateStatusUI] the status bar has the class [disabled]
    exactly when the flag is off, every other class is as before, and the
    text is the one for the flag; so after the popup has loaded and after
    every change of the checkbox the status display matches the checkbox. *)
Theorem updateStatusUI_display (isEnabled : bool) (pp : Popup) (x : string)
    (v : option bool) (br : Browser) :
  ("disabled" ∈ statusBarClasses (updateStatusUI isEnabled pp)
     <-> isEnabled = false)
  /\ (x <> "disabled" ->
      (x ∈ statusBarClasses (updateStatusUI isEnabled pp)
         <-> x ∈ statusBarClasses pp))
  /\ statusText (updateStatusUI isEnabled pp)
     = (if isEnabled then READY_TEXT else DISABLED_TEXT)
  /\ ("disabled" ∈ statusBarClasses (popupLoaded v pp)
        <-> toggleChecked (popupLoaded v pp) = false)
  /\ ("disabled" ∈ statusBarClasses (toggleChanged pp br).1
        <-> toggleChecked (toggleChanged pp br).1 = false).
Proof.
  assert (H : forall b p,
    "disabled" ∈ statusBarClasses (updateStatusUI b p) <-> b = false).
  { intros b p. destruct b; cbn.
    - rewrite classes_remove_elem. split; [intros [? _]; done | done].
    - rewrite classes_add_elem. split; [done | by left]. }
  split; [apply H |]. split; [| split; [by destruct isEnabled |]].
  - intros Hx. destruct isEnabled; cbn.
    + rewrite classes_remove_elem. tauto.
    + rewrite classes_add_elem. tauto.
  - split.
    + unfold popupLoaded. rewrite H. by destruct v as [[|] |].
    + cbn. rewrite H. destruct (toggleChecked pp) eqn:E; cbn; by rewrite E.
Qed.

Lemma setEnabled_twice (state : bool) (w : World) :
  setEnabled state (setEnabled state w) = setEnabled state w.
Proof. by destruct state. Qed.

Lemma deliver_twice (state : bool) (tab : option World) :
  deliver (SET_ENABLED state) (deliver (SET_ENABLED state) tab)
  = deliver (SET_ENABLED state) tab.
Proof. destruct tab as [w |]; [| done]. cbn. by rewrite setEnabled_twice. Qed.

Lemma map_alter_idem {A} (f : A -> A) (i : nat) (l : list A) :
  (forall x, f (f x) = f x) -> map f (alter f i l) = map f l.
Proof.
  intros Hf. revert i. induction l as [|x l IH]; intros [|i]; cbn; try done.
  - by rewrite Hf.
  - by rewrite IH.
Qed.

(** X22. The checkbox of the popup is changed and the background worker
    handles the change of the stored value: the value stored is the
    checkbox, the message has reached the content script of every tab once
    in effect (the active tab, which is sent it twice, ends as the others),
    so every content script has the flag of the checkbox and, when that is
    off, no floating button; tabs without a content script stay as they
    are. *)
Theorem toggle_reaches_all_tabs (pp : Popup) (br : Browser) :
  storage (storageChanged (Some (toggleChecked pp)) "local"
             (toggleChanged pp br).2) = Some (toggleChecked pp)
  /\ tabs (storageChanged (Some (toggleChecked pp)) "local"
             (toggleChanged pp br).2)
     = map (deliver (SET_ENABLED (toggleChecked pp))) (tabs br)
  /\ Forall2 (fun before after =>
       match before, after with
       | Some w, Some w' =>
           enabled (script w') = toggleChecked pp
           /\ floatingBtn (script w')
              = (if toggleChecked pp then floatingBtn (script w) else None)
           /\ runtime w' = runtime w /\ page w' = page w
           /\ tokenizer (script w') = tokenizer (script w)
       | None, None => True
       | _, _ => False
       end)
       (tabs br)
       (tabs (storageChanged (Some (toggleChecked pp)) "local"
                (toggleChanged pp br).2)).
Proof.
  assert (Ht : tabs (storageChanged (Some (toggleChecked pp)) "local"
                       (toggleChanged pp br).2)
               = map (deliver (SET_ENABLED (toggleChecked pp))) (tabs br)).
  { unfold toggleChanged. cbn.
    destruct (activeTab br) as [id |]; cbn; [| done].
    apply map_alter_idem, deliver_twice. }
  split; [| split; [exact Ht |]].
  - unfold toggleChanged. cbn. by destruct (activeTab br).
  - rewrite Ht. clear Ht. generalize (tabs br). intros l.
    induction l as [|tab l IH]; cbn; [constructor |].
    constructor; [| exact IH].
    destruct tab as [w |]; [| done]. cbn.
    by destruct (toggleChecked pp).
Qed.
